(** * Signaling core of the GStreamer WebRTC sender

    A shallow embedding of [scripts/gstreamer-webrtc-sender.py]: the
    [WebRTCStreamer] class (media-engine callbacks, signaling handlers,
    [connect_signaling], [start], [stop], [run]), the resolution parsing
    and exit status of [main] and the pipeline descriptions of
    [build_pipeline] and [create_pipeline], followed by the properties of
    the signaling core and of the rest of the script.

    Conventions.
    - A Python method becomes a computation in the monad [Py]: it threads the
      object [self] together with asyncio's queue of scheduled tasks, appends
      to a trace of observable effects (logger calls, calls into the media
      engine, websocket traffic) and either returns or raises.
    - What the environment decides (whether [websockets.connect] succeeds,
      whether a send fails, what [json.loads] makes of a frame, what the
      media engine replies) is an explicit argument.
    - Text is modelled as [string], the bytes of its UTF-8 encoding; a
      [str] that holds a lone surrogate has no such encoding and is a JSON
      value of its own. The functions that look at characters ([int],
      [str.split()]) are modelled on ASCII text, and what is stated of
      them is stated of ASCII text. JSON numbers are the integers. A log
      line is its fixed text and the value interpolated into it.
    - A callback of the media engine carries the thread it runs on: the
      thread of the asyncio event loop, or a thread of the engine, on which
      [asyncio.get_event_loop()] finds no loop.
    - The media engine is a boundary: a call into it is recorded with its
      arguments; a launch records which of the two descriptions it is made
      with, and their text is built in [Description]; the conversion of
      the arguments of [emit] is not modelled. Callbacks are taken one at
      a time. *)

From Stdlib Require Import String Ascii List ZArith Lia Bool Arith.
From Stdlib Require Import DecimalString DecimalZ DecimalPos.
Import ListNotations.

Set Warnings "-register-all".
Local Open Scope string_scope.
Local Open Scope list_scope.

(* ================================================================== *)
(** * JSON values and Python dictionaries *)

Module Json.

(** The values [json.loads] produces: [None], [bool], [int], [str],
    [list] and [dict]. A [dict] is kept as its items, one per key. A
    [str] is [JStr] with the bytes of its UTF-8 encoding; a [str] that
    holds a lone surrogate, as [json.loads] makes of an escape like
    [\ud800], has no UTF-8 encoding and is [JSurrogates] with its code
    points. *)
Inductive json : Type :=
| JNull
| JBool (b : bool)
| JInt (n : Z)
| JStr (s : string)
| JArr (xs : list json)
| JObj (items : list (string * json))
| JSurrogates (code_points : list Z).

Definition dict : Type := list (string * json).

(** [d.get(key, default)]. *)
Fixpoint get_default (d : dict) (key : string) (default : json) : json :=
  match d with
  | [] => default
  | (k, v) :: rest =>
      if String.eqb k key then v else get_default rest key default
  end.

(** [d.get(key)]: the default is [None]. *)
Definition get (d : dict) (key : string) : json := get_default d key JNull.

(** Python truth value, as tested by [if x:]. *)
Definition truthy (j : json) : bool :=
  match j with
  | JNull => false
  | JBool b => b
  | JInt n => negb (Z.eqb n 0)
  | JStr s => negb (String.eqb s EmptyString)
  | JArr xs => match xs with [] => false | _ => true end
  | JObj items => match items with [] => false | _ => true end
  | JSurrogates code_points =>
      match code_points with [] => false | _ => true end
  end.

(** [x == "literal"] for a value read out of a message. *)
Definition is_str (j : json) (lit : string) : bool :=
  match j with
  | JStr s => String.eqb s lit
  | _ => false
  end.

End Json.
Export Json.

(* ================================================================== *)
(** * The library functions [str.split] and [int] used by [main] *)

Module PyStr.

(** [s.split(sep)] for a one-character separator: the pieces between the
    occurrences of [sep]; never the empty list. *)
Fixpoint split (sep : ascii) (s : string) : list string :=
  match s with
  | EmptyString => [EmptyString]
  | String c rest =>
      if Ascii.eqb c sep then EmptyString :: split sep rest
      else match split sep rest with
           | [] => [String c EmptyString]
           | piece :: pieces => String c piece :: pieces
           end
  end.

(** [s.isascii()]: every byte of the text is below 128. *)
Definition is_ascii (c : ascii) : bool := (nat_of_ascii c <? 128)%nat.

Fixpoint ascii_text (s : string) : bool :=
  match s with
  | String c rest => is_ascii c && ascii_text rest
  | EmptyString => true
  end.

(** The whitespace [int] skips on both ends of ASCII text: tab, newline,
    vertical tab, form feed, carriage return and space. *)
Definition is_space (c : ascii) : bool :=
  let n := nat_of_ascii c in
  ((9 <=? n)%nat && (n <=? 13)%nat) || (n =? 32)%nat.

Definition is_digit (c : ascii) : bool :=
  let n := nat_of_ascii c in (48 <=? n)%nat && (n <=? 57)%nat.

Definition digit_value (c : ascii) : Z := Z.of_nat (nat_of_ascii c - 48).

Definition is_underscore (c : ascii) : bool := Ascii.eqb c "_"%char.

Fixpoint lstrip (s : string) : string :=
  match s with
  | String c rest => if is_space c then lstrip rest else s
  | EmptyString => s
  end.

Fixpoint all_space (s : string) : bool :=
  match s with
  | String c rest => is_space c && all_space rest
  | EmptyString => true
  end.

(** The scan over digits and underscores: [prev_us] tells whether the
    previous character was an underscore, [acc] is the value read so far
    and [n] the number of digits. [None] on a doubled or a trailing
    underscore; otherwise the value, the digit count and the rest. *)
Fixpoint scan_digits (s : string) (prev_us : bool) (acc : Z) (n : nat)
  : option (Z * nat * string) :=
  match s with
  | String c rest =>
      if is_digit c then
        scan_digits rest false (10 * acc + digit_value c)%Z (S n)
      else if is_underscore c then
        if prev_us then None else scan_digits rest true acc n
      else if prev_us then None else Some (acc, n, s)
  | EmptyString => if prev_us then None else Some (acc, n, s)
  end.

Section Int.

(** The interpreter's limit on the digits of a decimal literal
    ([sys.get_int_max_str_digits()], 4300 unless configured); [0]
    disables it. *)
Variable max_str_digits : nat.

Definition unsigned_int (s : string) : option Z :=
  match s with
  | String c _ =>
      if is_underscore c then None
      else
        match scan_digits s false 0%Z 0%nat with
        | Some (v, n, rest) =>
            if (n =? 0)%nat then None
            else if negb (all_space rest) then None
            else if (0 <? max_str_digits)%nat && (max_str_digits <? n)%nat
                 then None
            else Some v
        | None => None
        end
  | EmptyString => None
  end.

(** [int(s)] for a [str] of ASCII characters: [None] stands for
    [ValueError]. A value this definition reads is the value of [int]
    for every text, since only ASCII text is read; outside ASCII [int]
    also reads the other decimal digits and skips the other whitespace
    of Unicode, so that a [None] tells of a [ValueError] on ASCII text
    only. *)
Definition int (s : string) : option Z :=
  match lstrip s with
  | String "+"%char rest => unsigned_int rest
  | String "-"%char rest => option_map Z.opp (unsigned_int rest)
  | body => unsigned_int body
  end.

End Int.

(** [str(n)] for an [int]. *)
Definition str_of_int (n : Z) : string :=
  NilZero.string_of_int (Z.to_int n).

End PyStr.

(* ================================================================== *)
(** * Effects, exceptions and the monad of Python methods *)

Module Py.

(** The exceptions the modelled code meets. [SystemExit],
    [KeyboardInterrupt] and [CancelledError] are not subclasses of
    [Exception]; [JSONDecodeError], [UnicodeDecodeError] and
    [UnicodeEncodeError] are subclasses of [ValueError], [RecursionError]
    one of [RuntimeError], and none of the last three is a
    [JSONDecodeError]. *)
Inductive exn : Type :=
| AttributeError
| TypeError
| ValueError
| JSONDecodeError
| RuntimeError (msg : string)
| GLibError
| ConnectionClosedError
| OSError
| CancelledError
| KeyboardInterrupt
| SystemExit (code : Z)
| UnicodeDecodeError
| UnicodeEncodeError
| RecursionError.

(** [except Exception] catches exactly these. *)
Definition is_Exception (e : exn) : bool :=
  match e with
  | CancelledError | KeyboardInterrupt | SystemExit _ => false
  | _ => true
  end.

Definition is_JSONDecodeError (e : exn) : bool :=
  match e with JSONDecodeError => true | _ => false end.

Definition is_GLibError (e : exn) : bool :=
  match e with GLibError => true | _ => false end.

Inductive level : Type := DEBUG | INFO | WARNING | ERROR.

(** The value interpolated into a log line, next to its fixed text. *)
Inductive log_arg : Type :=
| NoArg
| StrArg (s : string)
| JsonArg (j : json)
| ExnArg (e : exn).

Inductive gst_state : Type := NULL | PLAYING.

(** A coroutine handed to [create_task]. *)
Inductive task : Type :=
| SendTask (message : json)      (* _send_signaling_message(message) *)
| CloseTask.                     (* websocket.close() *)

(** What a method does to the outside, in program order. *)
Inductive effect : Type :=
| Log (lv : level) (text : string) (arg : log_arg)
| ParseLaunch (fallback : bool)                  (* Gst.parse_launch *)
| SetProperty (name value : string)              (* webrtcbin.set_property *)
| SetState (st : gst_state)                      (* pipeline.set_state *)
| EmitCreateOffer                                (* emit("create-offer") *)
| EmitSetLocalDescription (sdp : string)
| EmitSetRemoteDescription (sdp : string)
| EmitAddIceCandidate (mline candidate : json)
| Connect (url : string)                         (* websockets.connect *)
| Send (message : json)          (* websocket.send(json.dumps(message)) *)
| Close                                          (* websocket.close() runs *)
| CreateTask (t : task)                          (* loop.create_task *)
| LoopQuit.                                      (* self.loop.quit() *)

Definition handle : Type := nat.

(** The attributes of a [WebRTCStreamer]. *)
Record streamer : Type := mkStreamer {
  device : string;
  width : Z;
  height : Z;
  fps : Z;
  bitrate : Z;
  signaling_url : string;
  stun_server : string;
  pipeline : option handle;
  webrtcbin : option handle;
  websocket : option handle;
  loop : option handle;
  session_id : json
}.

Definition with_pipeline (p : option handle) (s : streamer) : streamer :=
  mkStreamer (device s) (width s) (height s) (fps s) (bitrate s)
    (signaling_url s) (stun_server s)
    p (webrtcbin s) (websocket s) (loop s) (session_id s).

Definition with_webrtcbin (b : option handle) (s : streamer) : streamer :=
  mkStreamer (device s) (width s) (height s) (fps s) (bitrate s)
    (signaling_url s) (stun_server s)
    (pipeline s) b (websocket s) (loop s) (session_id s).

Definition with_websocket (ws : option handle) (s : streamer) : streamer :=
  mkStreamer (device s) (width s) (height s) (fps s) (bitrate s)
    (signaling_url s) (stun_server s)
    (pipeline s) (webrtcbin s) ws (loop s) (session_id s).

Definition with_session_id (id : json) (s : streamer) : streamer :=
  mkStreamer (device s) (width s) (height s) (fps s) (bitrate s)
    (signaling_url s) (stun_server s)
    (pipeline s) (webrtcbin s) (websocket s) (loop s) id.

(** The object together with the event loop's scheduled tasks, oldest
    first. *)
Record world : Type := mkWorld {
  self : streamer;
  ready : list task
}.

Inductive completion (A : Type) : Type :=
| Returns (a : A)
| Raises (e : exn).
Arguments Returns {A} a.
Arguments Raises {A} e.

Record outcome (A : Type) : Type := mkOutcome {
  result : completion A;
  final : world;
  trace : list effect
}.
Arguments mkOutcome {A} result final trace.
Arguments result {A} o.
Arguments final {A} o.
Arguments trace {A} o.

Definition Py (A : Type) : Type := world -> outcome A.

Definition ret {A : Type} (a : A) : Py A :=
  fun w => mkOutcome (Returns a) w [].

Definition raise {A : Type} (e : exn) : Py A :=
  fun w => mkOutcome (Raises e) w [].

Definition bind {A B : Type} (c : Py A) (k : A -> Py B) : Py B :=
  fun w =>
    let o := c w in
    match result o with
    | Returns a =>
        let o' := k a (final o) in
        mkOutcome (result o') (final o') (trace o ++ trace o')
    | Raises e => mkOutcome (Raises e) (final o) (trace o)
    end.

(** [try: c  except <catches> as e: handler e]. *)
Definition try_except {A : Type} (c : Py A) (catches : exn -> bool)
    (handler : exn -> Py A) : Py A :=
  fun w =>
    let o := c w in
    match result o with
    | Returns a => o
    | Raises e =>
        if catches e then
          let o' := handler e (final o) in
          mkOutcome (result o') (final o') (trace o ++ trace o')
        else o
    end.

Definition tell (e : effect) : Py unit :=
  fun w => mkOutcome (Returns tt) w [e].

Definition get_self : Py streamer :=
  fun w => mkOutcome (Returns (self w)) w [].

Definition modify_self (f : streamer -> streamer) : Py unit :=
  fun w => mkOutcome (Returns tt) (mkWorld (f (self w)) (ready w)) [].

(** [asyncio.get_event_loop().create_task(coro)]. *)
Definition create_task (t : task) : Py unit :=
  fun w => mkOutcome (Returns tt) (mkWorld (self w) (ready w ++ [t]))
             [CreateTask t].

Definition log (lv : level) (text : string) (arg : log_arg) : Py unit :=
  tell (Log lv text arg).

(** Where a callback of the media engine runs: on the thread that runs
    the asyncio event loop, or on a thread of the engine. *)
Inductive thread : Type := LoopThread | EngineThread.

(** [asyncio.get_event_loop()]: the loop, on its thread; on a thread
    where no event loop is current it raises [RuntimeError] (the message
    goes on with the name of the thread). *)
Definition get_event_loop (th : thread) : Py unit :=
  match th with
  | LoopThread => ret tt
  | EngineThread => raise (RuntimeError "There is no current event loop in thread")
  end.

End Py.
Export Py.

Declare Scope py_scope.
Delimit Scope py_scope with py.
Notation "x <- c ;; k" := (bind c (fun x => k))
  (at level 61, c at next level, right associativity) : py_scope.
Notation "c ;; k" := (bind c (fun _ => k))
  (at level 61, right associativity) : py_scope.
Local Open Scope py_scope.

(* ================================================================== *)
(** * class WebRTCStreamer *)

Module WebRTCStreamer.

(** [__init__]: the configuration is stored, every handle and the
    session id start as [None]. *)
Definition init (device : string) (width height fps bitrate : Z)
    (signaling_url stun_server : string) : streamer :=
  mkStreamer device width height fps bitrate signaling_url stun_server
    None None None None JNull.

(** What the media engine answers during [start]. *)
Record engine_env : Type := mkEngineEnv {
  launch : option handle;          (* None: parse_launch raises GLib.Error *)
  fallback_launch : option handle; (* the same for the software pipeline *)
  sendrecv : option handle;        (* pipeline.get_by_name("sendrecv") *)
  play_ok : bool                   (* set_state(PLAYING) is not FAILURE *)
}.

Definition parse_launch (fallback : bool) (reply : option handle)
  : Py unit :=
  tell (ParseLaunch fallback) ;;
  match reply with
  | Some p => modify_self (with_pipeline (Some p))
  | None => raise GLibError
  end.

Definition _configure_ice_servers : Py unit :=
  s <- get_self ;;
  if negb (String.eqb (stun_server s) EmptyString) then
    tell (SetProperty "stun-server" (stun_server s)) ;;
    log INFO "STUN server configured: " (StrArg (stun_server s))
  else ret tt.

Definition create_pipeline (env : engine_env) : Py unit :=
  log INFO "Creating pipeline: " NoArg ;;
  try_except (parse_launch false (launch env)) is_GLibError
    (fun e =>
       log ERROR "Failed to create pipeline: " (ExnArg e) ;;
       log INFO "Trying fallback pipeline with software encoding..." NoArg ;;
       parse_launch true (fallback_launch env)) ;;
  modify_self (with_webrtcbin (sendrecv env)) ;;
  match sendrecv env with
  | None => raise (RuntimeError "Failed to get webrtcbin element")
  | Some _ =>
      _configure_ice_servers ;;
      log INFO "Pipeline created successfully" NoArg
  end.

(** Called when negotiation is needed: ask the engine for an offer. *)
Definition _on_negotiation_needed : Py unit :=
  log INFO "Negotiation needed, creating offer..." NoArg ;;
  tell EmitCreateOffer.

Definition offer_message (sdp_text : string) (s : streamer) : json :=
  JObj [("type", JStr "offer");
        ("sdp", JStr sdp_text);
        ("session_id", session_id s)].

(** Called with the engine's reply, on the thread [th]; [offer] is the
    SDP text of the offer, [None] when the reply holds none. The event
    loop is looked up before the message is built. *)
Definition _on_offer_created (th : thread) (offer : option string)
  : Py unit :=
  match offer with
  | None => log ERROR "Failed to create offer" NoArg
  | Some sdp_text =>
      tell (EmitSetLocalDescription sdp_text) ;;
      log INFO "Sending SDP offer to signaling server" NoArg ;;
      get_event_loop th ;;
      s <- get_self ;;
      create_task (SendTask (offer_message sdp_text s))
  end.

Definition candidate_message (mline_index : Z) (candidate : string)
    (s : streamer) : json :=
  JObj [("type", JStr "ice-candidate");
        ("candidate", JStr candidate);
        ("sdpMLineIndex", JInt mline_index);
        ("session_id", session_id s)].

(** Called, on the thread [th], when the engine discovers a local ICE
    candidate. *)
Definition _on_ice_candidate (th : thread) (mline_index : Z)
    (candidate : string) : Py unit :=
  log DEBUG "ICE candidate: " (StrArg candidate) ;;
  get_event_loop th ;;
  s <- get_self ;;
  create_task (SendTask (candidate_message mline_index candidate s)).

(** [await self.websocket.send(json.dumps(message))]: [failure] is the
    exception the send raises, if any. *)
Definition websocket_send (message : json) (failure : option exn)
  : Py unit :=
  match failure with
  | None => tell (Send message)
  | Some e => raise e
  end.

Definition _send_signaling_message (message : json)
    (failure : option exn) : Py unit :=
  s <- get_self ;;
  match websocket s with
  | Some _ =>
      try_except (websocket_send message failure) is_Exception
        (fun e => log ERROR "Failed to send signaling message: " (ExnArg e))
  | None => ret tt
  end.

(** [self.webrtcbin.emit(...)]: an attribute access on [None] raises. *)
Definition webrtcbin_emit (e : effect) : Py unit :=
  s <- get_self ;;
  match webrtcbin s with
  | Some _ => tell e
  | None => raise AttributeError
  end.

(** The [answer] branch: the text is encoded with [bytes(sdp, "utf-8")],
    which raises for what is no [str] and for a [str] with a lone
    surrogate, and parsed into an SDP message whose parse result is not
    looked at; the description is handed to the engine. *)
Definition handle_answer (message : dict) : Py unit :=
  let sdp := get message "sdp" in
  if truthy sdp then
    log INFO "Received SDP answer" NoArg ;;
    match sdp with
    | JStr text => webrtcbin_emit (EmitSetRemoteDescription text)
    | JSurrogates _ => raise UnicodeEncodeError
    | _ => raise TypeError
    end
  else ret tt.

(** The [ice-candidate] branch. *)
Definition handle_ice_candidate (message : dict) : Py unit :=
  let candidate := get message "candidate" in
  let sdp_mline_index := get_default message "sdpMLineIndex" (JInt 0) in
  if truthy candidate then
    log DEBUG "Adding remote ICE candidate" NoArg ;;
    webrtcbin_emit (EmitAddIceCandidate sdp_mline_index candidate)
  else ret tt.

(** The [session-created] branch. *)
Definition handle_session_created (message : dict) : Py unit :=
  modify_self (with_session_id (get message "session_id")) ;;
  s <- get_self ;;
  log INFO "Session created: " (JsonArg (session_id s)).

(** Handle incoming signaling message: [message.get] exists on a [dict]
    only. *)
Definition _handle_signaling_message (message : json) : Py unit :=
  match message with
  | JObj d =>
      let msg_type := get d "type" in
      if is_str msg_type "answer" then handle_answer d
      else if is_str msg_type "ice-candidate" then handle_ice_candidate d
      else if is_str msg_type "session-created" then handle_session_created d
      else if is_str msg_type "error" then
        log ERROR "Signaling error: " (JsonArg (get d "message"))
      else ret tt
  | _ => raise AttributeError
  end.

(** [stop]. *)
Definition stop : Py unit :=
  log INFO "Stopping WebRTC streamer..." NoArg ;;
  s <- get_self ;;
  match pipeline s with
  | Some _ =>
      tell (SetState NULL) ;;
      modify_self (with_pipeline None)
  | None => ret tt
  end ;;
  s <- get_self ;;
  match websocket s with
  | Some _ =>
      create_task CloseTask ;;
      modify_self (with_websocket None)
  | None => ret tt
  end ;;
  s <- get_self ;;
  match loop s with
  | Some _ => tell LoopQuit
  | None => ret tt
  end ;;
  log INFO "Streamer stopped" NoArg.

(** The values of the engine's [ice-connection-state] property. *)
Inductive ice_connection_state : Type :=
| ICE_NEW | ICE_CHECKING | ICE_CONNECTED | ICE_COMPLETED
| ICE_FAILED | ICE_DISCONNECTED | ICE_CLOSED.

Definition ice_value_nick (state : ice_connection_state) : string :=
  match state with
  | ICE_NEW => "new"
  | ICE_CHECKING => "checking"
  | ICE_CONNECTED => "connected"
  | ICE_COMPLETED => "completed"
  | ICE_FAILED => "failed"
  | ICE_DISCONNECTED => "disconnected"
  | ICE_CLOSED => "closed"
  end.

(** Called when ICE connection state changes: it only logs. *)
Definition _on_ice_connection_state (state : ice_connection_state)
  : Py unit :=
  log INFO "ICE connection state: " (StrArg (ice_value_nick state)) ;;
  match state with
  | ICE_FAILED => log ERROR "ICE connection failed" NoArg
  | ICE_CONNECTED => log INFO "ICE connection established!" NoArg
  | _ => ret tt
  end.

(** The values of the engine's [connection-state] property. *)
Inductive peer_connection_state : Type :=
| PEER_NEW | PEER_CONNECTING | PEER_CONNECTED
| PEER_DISCONNECTED | PEER_FAILED | PEER_CLOSED.

Definition peer_value_nick (state : peer_connection_state) : string :=
  match state with
  | PEER_NEW => "new"
  | PEER_CONNECTING => "connecting"
  | PEER_CONNECTED => "connected"
  | PEER_DISCONNECTED => "disconnected"
  | PEER_FAILED => "failed"
  | PEER_CLOSED => "closed"
  end.

(** Called when peer connection state changes: it only logs. *)
Definition _on_connection_state (state : peer_connection_state) : Py unit :=
  log INFO "Peer connection state: " (StrArg (peer_value_nick state)).

(** The messages of the pipeline's bus, by [message.type]; [src] is the
    object a state change comes from. *)
Inductive bus_message : Type :=
| MsgError (err debug : string)
| MsgWarning (warn : string)
| MsgEos
| MsgStateChanged (src : handle) (old new : string)
| MsgOther.

(** Handle GStreamer bus messages: an error and the end of the stream
    stop the streamer. *)
Definition _on_bus_message (message : bus_message) : Py unit :=
  match message with
  | MsgError err debug =>
      log ERROR "Pipeline error: " (StrArg err) ;;
      log DEBUG "Debug info: " (StrArg debug) ;;
      stop
  | MsgWarning warn => log WARNING "Pipeline warning: " (StrArg warn)
  | MsgEos => log INFO "End of stream" NoArg ;; stop
  | MsgStateChanged src old new =>
      s <- get_self ;;
      match pipeline s with
      | Some p =>
          if Nat.eqb src p
          then log DEBUG "Pipeline state: " (StrArg (old ++ " -> " ++ new))
          else ret tt
      | None => ret tt
      end
  | MsgOther => ret tt
  end.

(** [start]. *)
Definition start (env : engine_env) : Py unit :=
  log INFO "Starting WebRTC streamer..." NoArg ;;
  create_pipeline env ;;
  tell (SetState PLAYING) ;;
  if play_ok env then log INFO "Pipeline started" NoArg
  else raise (RuntimeError "Failed to start pipeline").

(** What the signaling server and the network do during
    [connect_signaling]. *)
Record signaling_env : Type := mkSignalingEnv {
  connect_result : handle + exn;   (* websockets.connect *)
  register_failure : option exn;   (* the send of the register message *)
  inbound : list string;           (* the frames received, in order *)
  closing : option exn             (* None: clean close ends the loop *)
}.

Definition register_message (s : streamer) : json :=
  JObj [("type", JStr "register");
        ("role", JStr "sender");
        ("device", JStr (device s));
        ("resolution",
         JStr (PyStr.str_of_int (width s) ++ "x" ++
               PyStr.str_of_int (height s)));
        ("fps", JInt (fps s))].

(** How [json.loads] fails on a frame: [JSONDecodeError] on what is no
    JSON; [UnicodeDecodeError] on a binary frame whose bytes are no
    encoded text; [RecursionError] on JSON nested too deep; a plain
    [ValueError] on a number with more digits than the interpreter
    converts. *)
Inductive loads_error : Type := NotJson | NotText | TooDeep | TooLong.

Definition loads_exn (err : loads_error) : exn :=
  match err with
  | NotJson => JSONDecodeError
  | NotText => UnicodeDecodeError
  | TooDeep => RecursionError
  | TooLong => ValueError
  end.

Section Signaling.

(** [json.loads] on a frame: the value, or how it fails. *)
Variable json_loads : string -> json + loads_error.

Definition loads (message : string) : Py json :=
  match json_loads message with
  | inl data => ret data
  | inr err => raise (loads_exn err)
  end.

(** One turn of the [async for] body. *)
Definition receive_one (message : string) : Py unit :=
  try_except
    (data <- loads message ;; _handle_signaling_message data)
    is_JSONDecodeError
    (fun _ => log ERROR "Invalid JSON message: " (StrArg message)).

Fixpoint receive_loop (messages : list string) : Py unit :=
  match messages with
  | [] => ret tt
  | message :: rest => receive_one message ;; receive_loop rest
  end.

Definition websockets_connect (url : string) (reply : handle + exn)
  : Py unit :=
  tell (Connect url) ;;
  match reply with
  | inl ws => modify_self (with_websocket (Some ws))
  | inr e => raise e
  end.

Definition connect_signaling (env : signaling_env) : Py unit :=
  s <- get_self ;;
  log INFO "Connecting to signaling server: " (StrArg (signaling_url s)) ;;
  try_except
    (websockets_connect (signaling_url s) (connect_result env) ;;
     log INFO "Connected to signaling server" NoArg ;;
     _send_signaling_message (register_message s) (register_failure env) ;;
     receive_loop (inbound env) ;;
     match closing env with
     | None => ret tt
     | Some e => raise e
     end)
    is_Exception
    (fun e =>
       log ERROR "Signaling connection error: " (ExnArg e) ;;
       raise e).

(** Main run loop. *)
Definition run (eenv : engine_env) (senv : signaling_env) : Py unit :=
  start eenv ;;
  try_except (connect_signaling senv) is_Exception
    (fun e =>
       log ERROR "Failed to connect to signaling: " (ExnArg e) ;;
       stop).

End Signaling.

End WebRTCStreamer.
Export WebRTCStreamer.

(* ================================================================== *)
(** * The callbacks and tasks as a stream of events *)

Module Reactor.

(** What can happen to a streamer once it runs: a callback of the media
    engine or of the pipeline's bus fires (the two callbacks that look up
    the event loop with the thread they run on), a decoded signaling
    message is handled, or the event loop runs the oldest scheduled task
    ([failure] is what its send raises, if anything). *)
Inductive event : Type :=
| NegotiationNeeded
| OfferCreated (th : thread) (offer : option string)
| IceCandidate (th : thread) (mline_index : Z) (candidate : string)
| IceConnectionState (state : ice_connection_state)
| ConnectionState (state : peer_connection_state)
| BusMessage (message : bus_message)
| Message (data : json)
| RunTask (failure : option exn).

Definition pop_task : Py (option task) :=
  fun w =>
    match ready w with
    | [] => mkOutcome (Returns None) w []
    | t :: rest => mkOutcome (Returns (Some t)) (mkWorld (self w) rest) []
    end.

Definition run_task (failure : option exn) : Py unit :=
  next <- pop_task ;;
  match next with
  | None => ret tt
  | Some (SendTask message) => _send_signaling_message message failure
  | Some CloseTask => tell Close
  end.

Definition react (ev : event) : Py unit :=
  match ev with
  | NegotiationNeeded => _on_negotiation_needed
  | OfferCreated th offer => _on_offer_created th offer
  | IceCandidate th mline_index candidate =>
      _on_ice_candidate th mline_index candidate
  | IceConnectionState state => _on_ice_connection_state state
  | ConnectionState state => _on_connection_state state
  | BusMessage message => _on_bus_message message
  | Message data => _handle_signaling_message data
  | RunTask failure => run_task failure
  end.

(** The events in order; an exception ends the sequence. *)
Fixpoint react_all (evs : list event) : Py unit :=
  match evs with
  | [] => ret tt
  | ev :: rest => react ev ;; react_all rest
  end.

End Reactor.
Export Reactor.

(* ================================================================== *)
(** * [stop], statement by statement, and the signal handler of [main] *)

Module Interrupt.

(** The program points of [stop]: each names the statement about to
    run. *)
Inductive stop_pc : Type :=
| AtLogStopping
| AtTestPipeline
| AtSetStateNull
| AtClearPipeline
| AtTestWebsocket
| AtCloseWebsocket
| AtClearWebsocket
| AtTestLoop
| AtLoopQuit
| AtLogStopped
| AtReturn.

(** One statement of [stop]. *)
Definition stop_step (pc : stop_pc) : Py stop_pc :=
  match pc with
  | AtLogStopping =>
      log INFO "Stopping WebRTC streamer..." NoArg ;; ret AtTestPipeline
  | AtTestPipeline =>
      s <- get_self ;;
      ret (match pipeline s with
           | Some _ => AtSetStateNull
           | None => AtTestWebsocket
           end)
  | AtSetStateNull => tell (SetState NULL) ;; ret AtClearPipeline
  | AtClearPipeline =>
      modify_self (with_pipeline None) ;; ret AtTestWebsocket
  | AtTestWebsocket =>
      s <- get_self ;;
      ret (match websocket s with
           | Some _ => AtCloseWebsocket
           | None => AtTestLoop
           end)
  | AtCloseWebsocket => create_task CloseTask ;; ret AtClearWebsocket
  | AtClearWebsocket =>
      modify_self (with_websocket None) ;; ret AtTestLoop
  | AtTestLoop =>
      s <- get_self ;;
      ret (match loop s with
           | Some _ => AtLoopQuit
           | None => AtLogStopped
           end)
  | AtLoopQuit => tell LoopQuit ;; ret AtLogStopped
  | AtLogStopped => log INFO "Streamer stopped" NoArg ;; ret AtReturn
  | AtReturn => ret AtReturn
  end.

(** [n] statements from [pc] on. *)
Fixpoint stop_steps (n : nat) (pc : stop_pc) : Py stop_pc :=
  match n with
  | O => ret pc
  | S m => next <- stop_step pc ;; stop_steps m next
  end.

(** [signal_handler] of [main], installed for SIGINT and SIGTERM. *)
Definition signal_handler : Py unit :=
  log INFO "Received shutdown signal" NoArg ;;
  stop ;;
  raise (SystemExit 0).

(** A call of [stop] during which the signal arrives after [n]
    statements: the interpreter runs the handler there, on the same
    thread, and the handler's [SystemExit] unwinds the interrupted
    call. *)
Definition stop_interrupted (n : nat) : Py unit :=
  stop_steps n AtLogStopping ;; signal_handler.

End Interrupt.
Export Interrupt.

(* ================================================================== *)
(** * [main]: the resolution argument and the exit status *)

Module Main.

Record args : Type := mkArgs {
  arg_device : string;
  arg_resolution : string;
  arg_fps : Z;
  arg_bitrate : Z;
  arg_signaling_url : string;
  arg_stun_server : string;
  arg_verbose : bool
}.

Section Main.

Variable max_str_digits : nat.
Variable json_loads : string -> json + loads_error.

(** [width, height = map(int, resolution.split("x"))]: [None] stands
    for the [ValueError] of a failing [int] or of an unpacking that
    does not find exactly two values. *)
Definition parse_resolution (resolution : string) : option (Z * Z) :=
  match List.map (PyStr.int max_str_digits)
                 (PyStr.split "x"%char resolution) with
  | [Some width; Some height] => Some (width, height)
  | _ => None
  end.

(** [main] up to the creation of the streamer. *)
Inductive startup : Type :=
| Exit (logged : list effect) (status : Z)
| Created (s : streamer).

Definition main_startup (a : args) : startup :=
  match parse_resolution (arg_resolution a) with
  | None =>
      Exit [Log ERROR "Invalid resolution format: "
              (StrArg (arg_resolution a))] 1
  | Some (width, height) =>
      Created (init (arg_device a) width height (arg_fps a)
                 (arg_bitrate a) (arg_signaling_url a)
                 (arg_stun_server a))
  end.

Definition is_KeyboardInterrupt (e : exn) : bool :=
  match e with KeyboardInterrupt => true | _ => false end.

(** [try: run  except KeyboardInterrupt: stop
    except Exception as e: log; stop; sys.exit(1)]. *)
Definition run_guarded (eenv : engine_env) (senv : signaling_env)
  : Py unit :=
  fun w =>
    let o := run json_loads eenv senv w in
    match result o with
    | Returns _ => o
    | Raises e =>
        let handler :=
          if is_KeyboardInterrupt e then Some stop
          else if is_Exception e then
            Some (log ERROR "Streamer error: " (ExnArg e) ;;
                  stop ;;
                  raise (SystemExit 1))
          else None in
        match handler with
        | Some h =>
            let o' := h (final o) in
            mkOutcome (result o') (final o') (trace o ++ trace o')
        | None => o
        end
    end.

(** The status the process ends with: [0] when [main] returns, the
    code of a [SystemExit], [1] for any other uncaught exception. *)
Definition exit_status (r : completion unit) : Z :=
  match r with
  | Returns _ => 0
  | Raises (SystemExit code) => code
  | Raises _ => 1
  end.

Definition main (a : args) (eenv : engine_env) (senv : signaling_env)
  : list effect * Z :=
  match main_startup a with
  | Exit logged status => (logged, status)
  | Created s =>
      let o := run_guarded eenv senv (mkWorld s []) in
      (trace o, exit_status (result o))
  end.

End Main.

End Main.
Export Main.

(* ================================================================== *)
(** * Reading traces, and the messages and worlds the properties use *)

Module Observe.

(** Calls into the media engine's negotiation interface. *)
Definition is_engine_call (e : effect) : bool :=
  match e with
  | EmitCreateOffer
  | EmitSetLocalDescription _
  | EmitSetRemoteDescription _
  | EmitAddIceCandidate _ _ => true
  | _ => false
  end.

Definition engine_calls (t : list effect) : list effect :=
  filter is_engine_call t.

Definition is_create_offer (e : effect) : bool :=
  match e with EmitCreateOffer => true | _ => false end.

Definition is_connect (e : effect) : bool :=
  match e with Connect _ => true | _ => false end.

Definition is_register (e : effect) : bool :=
  match e with
  | Send (JObj d) => is_str (get d "type") "register"
  | _ => false
  end.

Definition is_error_log (e : effect) : bool :=
  match e with Log ERROR _ _ => true | _ => false end.

(** The teardown actions of [stop]: pipeline to NULL, the scheduled
    websocket close, the quit of the main loop. *)
Definition is_teardown (e : effect) : bool :=
  match e with
  | SetState NULL | CreateTask CloseTask | LoopQuit => true
  | _ => false
  end.

Definition is_pipeline_null (e : effect) : bool :=
  match e with SetState NULL => true | _ => false end.

Definition count (p : effect -> bool) (t : list effect) : nat :=
  List.length (filter p t).

(** The offers in flight along a trace: a create-offer request opens
    one, an applied answer acknowledges what is open. [high] is the
    largest number seen. *)
Fixpoint in_flight (t : list effect) (now high : nat) : nat :=
  match t with
  | [] => high
  | EmitCreateOffer :: rest => in_flight rest (S now) (Nat.max high (S now))
  | EmitSetRemoteDescription _ :: rest => in_flight rest 0 high
  | _ :: rest => in_flight rest now high
  end.

Definition max_in_flight (t : list effect) : nat := in_flight t 0 0.

(** Whether an offer went out on the websocket that no applied answer
    followed. *)
Fixpoint offer_sent (t : list effect) (sent : bool) : bool :=
  match t with
  | [] => sent
  | Send (JObj d) :: rest =>
      offer_sent rest (sent || is_str (get d "type") "offer")
  | EmitSetRemoteDescription _ :: rest => offer_sent rest false
  | _ :: rest => offer_sent rest sent
  end.

(** The inbound messages of the signaling schema. *)
Definition answer_message (sdp : string) : json :=
  JObj [("type", JStr "answer"); ("sdp", JStr sdp)].


Definition session_created_message (id : json) : json :=
  JObj [("type", JStr "session-created"); ("session_id", id)].






(** A streamer as [main] creates it with the default arguments, and the
    same after a successful [start]. *)
Definition fresh : world :=
  mkWorld (init "/dev/video0" 1920 1080 30 4000000
             "ws://localhost:8765" "stun://stun.l.google.com:19302") [].

Definition good_engine : engine_env := mkEngineEnv (Some 1) None (Some 2) true.

Definition started : world := final (start good_engine fresh).

Definition connected : world :=
  mkWorld (with_websocket (Some 3) (self started)) [].

(** A decoder for a few frames, enough to run the receive loop. *)
Definition sample_loads (frame : string) : json + loads_error :=
  if String.eqb frame "bogus-frame"
  then inl (JObj [("type", JStr "bogus")])
  else inr NotJson.

End Observe.
Export Observe.

(* ================================================================== *)
(** * Auxiliary notions of the proofs *)

Module Aux.

(** The message types [_handle_signaling_message] has a branch for. *)
Definition recognized_type (t : json) : bool :=
  is_str t "answer" || is_str t "ice-candidate" ||
  is_str t "session-created" || is_str t "error".

(** Effects that neither touch the websocket, nor schedule a task, nor
    tear anything down. *)
Definition local_effect (e : effect) : Prop :=
  match e with
  | Connect _ | Send _ | CreateTask _ | SetState _ | LoopQuit => False
  | _ => True
  end.




(** The trace of [n] negotiation-needed callbacks. *)
Fixpoint negotiation_trace (n : nat) : list effect :=
  match n with
  | O => []
  | S m =>
      Log INFO "Negotiation needed, creating offer..." NoArg ::
      EmitCreateOffer :: negotiation_trace m
  end.

(** [at_most nc nr c]: whatever the world, [c] opens at most [nc]
    connections, sends at most [nr] register messages and leaves the main
    loop attribute alone. *)
Definition at_most (nc nr : nat) {A : Type} (c : Py A) : Prop :=
  forall w : world,
    (count is_connect (trace (c w)) <= nc)%nat /\
    (count is_register (trace (c w)) <= nr)%nat /\
    loop (self (final (c w))) = loop (self w).


(** A server that accepts the connection and drops it right after the
    register message. *)
Definition lossy_signaling : signaling_env :=
  mkSignalingEnv (inl 3%nat) None [] (Some ConnectionClosedError).

Definition zero_size_args : args :=
  mkArgs "/dev/video0" "0x0" 30 4000000 "ws://localhost:8765"
    "stun://stun.l.google.com:19302" false.

End Aux.
Export Aux.

(* ================================================================== *)
(** * [str.split()], [str.join] and f-strings, on ASCII text *)

Module PyText.

(** The characters [str.split()] separates ASCII text at: tab, newline,
    vertical tab, form feed, carriage return, the four separators 28 to
    31 and space. Outside ASCII it separates at the other whitespace of
    Unicode as well. *)
Definition is_whitespace (c : ascii) : bool :=
  let n := nat_of_ascii c in
  ((9 <=? n)%nat && (n <=? 13)%nat) || ((28 <=? n)%nat && (n <=? 32)%nat).

(** The split from the left: [word] is the word being read. *)
Fixpoint split_from (s : string) (word : string) : list string :=
  match s with
  | EmptyString =>
      match word with
      | EmptyString => []
      | _ => [word]
      end
  | String c rest =>
      if is_whitespace c then
        match word with
        | EmptyString => split_from rest EmptyString
        | _ => word :: split_from rest EmptyString
        end
      else split_from rest (word ++ String c EmptyString)
  end.

(** [s.split()]: the maximal runs without whitespace. *)
Definition split (s : string) : list string := split_from s EmptyString.

(** [sep.join(words)]. *)
Fixpoint join (sep : string) (words : list string) : string :=
  match words with
  | [] => EmptyString
  | [word] => word
  | word :: rest => word ++ sep ++ join sep rest
  end.

(** An f-string: its literal text and its replacement fields, each
    field already formatted, in order. *)
Inductive part : Type :=
| Text (literal : string)
| Field (value : string).

Definition text_of (p : part) : string :=
  match p with Text s | Field s => s end.

Fixpoint fstring (parts : list part) : string :=
  match parts with
  | [] => EmptyString
  | [p] => text_of p
  | p :: rest => text_of p ++ fstring rest
  end.

Definition newline : string := String (ascii_of_nat 10) EmptyString.

Fixpoint spaces (n : nat) : string :=
  match n with
  | O => EmptyString
  | S m => String " " (spaces m)
  end.

(** One line of a triple-quoted f-string: the line break that ends the
    line before, the indentation and the line's parts. *)
Definition line (indent : nat) (parts : list part) : list part :=
  Text newline :: Text (spaces indent) :: parts.

End PyText.

(* ================================================================== *)
(** * The pipeline descriptions of [build_pipeline] and [create_pipeline] *)

Module Description.

Import PyText.

Definition encoder_template (nvidia_encoder : string) (s : streamer)
  : list part :=
  line 12 [Text "nvvidconv ! "] ++
  line 12 [Field nvidia_encoder; Text " "] ++
  line 16 [Text "bitrate="; Field (PyStr.str_of_int (bitrate s)); Text " "] ++
  line 16 [Text "preset-level=1 "] ++
  line 16 [Text "control-rate=1 "] ++
  line 16 [Text "iframeinterval=30"] ++
  line 8 [].

Definition fallback_template (fallback_encoder : string) (s : streamer)
  : list part :=
  line 12 [Text "videoconvert ! "] ++
  line 12 [Field fallback_encoder; Text " "] ++
  line 16 [Text "bitrate=";
           Field (PyStr.str_of_int (bitrate s / 1000)); Text " "] ++
  line 16 [Text "speed-preset=ultrafast "] ++
  line 16 [Text "tune=zerolatency "] ++
  line 16 [Text "key-int-max=30"] ++
  line 8 [].

Definition pipeline_template (encoder_element : string) (s : streamer)
  : list part :=
  line 12 [Text "v4l2src device="; Field (device s); Text " ! "] ++
  line 12 [Text "video/x-raw,width="; Field (PyStr.str_of_int (width s));
           Text ",height="; Field (PyStr.str_of_int (height s));
           Text ",framerate="; Field (PyStr.str_of_int (fps s));
           Text "/1 ! "] ++
  line 12 [Text "videoconvert ! "] ++
  line 12 [Text "queue max-size-buffers=1 leaky=downstream ! "] ++
  line 12 [Field encoder_element; Text " ! "] ++
  line 12 [Text "h264parse config-interval=-1 ! "] ++
  line 12 [Text "rtph264pay config-interval=-1 pt=96 ! "] ++
  line 12 [Text "queue max-size-buffers=1 leaky=downstream ! "] ++
  line 12 [Text "application/x-rtp,media=video,encoding-name=H264,payload=96 ! "] ++
  line 12 [Text "webrtcbin name=sendrecv bundle-policy=max-bundle"] ++
  line 8 [].

(** [build_pipeline]: the description handed to the first
    [Gst.parse_launch]. The software encoder text is built and left
    unused, as in the source. *)
Definition build_pipeline (s : streamer) : string :=
  let nvidia_encoder := "nvv4l2h264enc" in
  let fallback_encoder := "x264enc" in
  let encoder_element := fstring (encoder_template nvidia_encoder s) in
  let fallback_pipeline := fstring (fallback_template fallback_encoder s) in
  let pipeline := fstring (pipeline_template encoder_element s) in
  let pipeline := join " " (split pipeline) in
  pipeline.

(** The text [fallback] of [create_pipeline], before it is cleaned. *)
Definition software_template (s : streamer) : list part :=
  line 16 [Text "v4l2src device="; Field (device s); Text " ! "] ++
  line 16 [Text "video/x-raw,width="; Field (PyStr.str_of_int (width s));
           Text ",height="; Field (PyStr.str_of_int (height s));
           Text ",framerate="; Field (PyStr.str_of_int (fps s));
           Text "/1 ! "] ++
  line 16 [Text "videoconvert ! "] ++
  line 16 [Text "x264enc bitrate=";
           Field (PyStr.str_of_int (bitrate s / 1000));
           Text " speed-preset=ultrafast tune=zerolatency ! "] ++
  line 16 [Text "h264parse ! "] ++
  line 16 [Text "rtph264pay config-interval=-1 pt=96 ! "] ++
  line 16 [Text "webrtcbin name=sendrecv bundle-policy=max-bundle"] ++
  line 12 [].

(** The description [create_pipeline] hands to the second
    [Gst.parse_launch], after a [GLib.Error] of the first. *)
Definition fallback (s : streamer) : string :=
  let fallback := fstring (software_template s) in
  join " " (split fallback).

End Description.

(* ================================================================== *)
(** * Further notions: traces, invariants, text *)

Module Traces.

Definition is_parse_launch (e : effect) : bool :=
  match e with ParseLaunch _ => true | _ => false end.

Definition is_set_property (e : effect) : bool :=
  match e with SetProperty _ _ => true | _ => false end.

Definition is_play (e : effect) : bool :=
  match e with SetState PLAYING => true | _ => false end.

Definition is_send (e : effect) : bool :=
  match e with Send _ => true | _ => false end.

Definition is_log (e : effect) : bool :=
  match e with Log _ _ _ => true | _ => false end.

Definition logged (e : effect) : Prop := is_log e = true.

Definition not_sent (e : effect) : Prop := is_send e = false.

Definition no_teardown (e : effect) : Prop := is_teardown e = false.

(** The pipeline [create_pipeline] ends up with: the hardware one, or
    the software one when the first launch fails. *)
Definition launched (env : engine_env) : option handle :=
  match launch env with
  | Some p => Some p
  | None => fallback_launch env
  end.

(** The teardown actions of a [stop] begun in [w]. *)
Definition releases (w : world) : list effect :=
  match pipeline (self w) with Some _ => [SetState NULL] | None => [] end ++
  match websocket (self w) with
  | Some _ => [CreateTask CloseTask] | None => [] end ++
  match loop (self w) with Some _ => [LoopQuit] | None => [] end.

Definition stops_streamer (message : bus_message) : bool :=
  match message with
  | MsgError _ _ | MsgEos => true
  | _ => false
  end.

Definition is_state_callback (ev : event) : bool :=
  match ev with
  | IceConnectionState _ | ConnectionState _ => true
  | _ => false
  end.

Definition discovered (th : thread) (c : Z * string) : event :=
  IceCandidate th (fst c) (snd c).

(** The message [_on_ice_candidate] builds for a candidate. *)
Definition local_candidate_message (s : streamer) (c : Z * string) : json :=
  candidate_message (fst c) (snd c) s.

Definition sent (message : json) : effect := Send message.

(** The event loop runs [n] scheduled tasks, none of which fails. *)
Definition run_tasks (n : nat) : list event := repeat (RunTask None) n.

Definition is_object (data : json) : bool :=
  match data with JObj _ => true | _ => false end.

(** A [str], with or without an UTF-8 encoding. *)
Definition is_text (data : json) : bool :=
  match data with JStr _ | JSurrogates _ => true | _ => false end.

(** The [resolution] field of an outbound message. *)
Definition resolution_field (message : json) : json :=
  match message with
  | JObj d => get d "resolution"
  | _ => JNull
  end.

(** The SDP text of an outbound offer. *)
Definition offer_sdp (message : json) : option string :=
  match message with
  | JObj d =>
      if is_str (get d "type") "offer" then
        match get d "sdp" with
        | JStr text => Some text
        | _ => None
        end
      else None
  | _ => None
  end.

(** Along a trace, every offer sent carries an SDP text that was set as
    the local description before; [seen] holds the texts set so far. *)
Fixpoint offers_described (t : list effect) (seen : list string) : bool :=
  match t with
  | [] => true
  | EmitSetLocalDescription text :: rest => offers_described rest (text :: seen)
  | Send message :: rest =>
      match offer_sdp message with
      | Some text => existsb (String.eqb text) seen
      | None => true
      end && offers_described rest seen
  | _ :: rest => offers_described rest seen
  end.

(** The texts set as local description along a trace, latest first,
    before those of [seen]. *)
Fixpoint described_after (t : list effect) (seen : list string)
  : list string :=
  match t with
  | [] => seen
  | EmitSetLocalDescription text :: rest => described_after rest (text :: seen)
  | _ :: rest => described_after rest seen
  end.

(** Every offer waiting to be sent carries a text of [seen]. *)
Definition pending_described (seen : list string) (w : world) : Prop :=
  forall message text,
    In (SendTask message) (ready w) ->
    offer_sdp message = Some text -> In text seen.

End Traces.
Export Traces.

Module Hoare.

(** [keeps Inv P c]: started in a world where [Inv] holds, [c] ends in
    one where it holds, whether it returns or raises, and every effect
    of [c] satisfies [P]. *)
Definition keeps (Inv : world -> Prop) (P : effect -> Prop) {A : Type}
    (c : Py A) : Prop :=
  forall w : world, Inv w -> Inv (final (c w)) /\ Forall P (trace (c w)).

(** [raises_only Q c]: every exception [c] ends with satisfies [Q]. *)
Definition raises_only (Q : exn -> Prop) {A : Type} (c : Py A) : Prop :=
  forall (w : world) (e : exn), result (c w) = Raises e -> Q e.

(** The streamers that differ at most in the session id. *)
Definition same_but_session_id (a b : streamer) : Prop :=
  with_session_id (session_id a) b = a.

Definition no_websocket (w : world) : Prop := websocket (self w) = None.

Definition ordinary (e : exn) : Prop := is_Exception e = true.

(** Every failure the network produces is an [Exception]: no
    cancellation, no interrupt, no exit. *)
Definition ordinary_failures (env : signaling_env) : Prop :=
  (forall e, connect_result env = inr e -> is_Exception e = true) /\
  (forall e, register_failure env = Some e -> is_Exception e = true) /\
  (forall e, closing env = Some e -> is_Exception e = true).

End Hoare.
Export Hoare.

Module TextAux.

Import PyText.

(** How often [c] occurs in [s]. *)
Fixpoint count_char (c : ascii) (s : string) : nat :=
  match s with
  | EmptyString => 0
  | String a rest => (if Ascii.eqb a c then 1 else 0) + count_char c rest
  end.

(** The decimal digits of [n] are within the interpreter's limit. *)
Definition digits_allowed (max_str_digits : nat) (n : Z) : Prop :=
  max_str_digits = 0%nat \/
  (String.length (PyStr.str_of_int (Z.abs n)) <= max_str_digits)%nat.

(** Text without whitespace, within ASCII. *)
Fixpoint plain (s : string) : bool :=
  match s with
  | EmptyString => true
  | String c rest =>
      (nat_of_ascii c <? 128)%nat && negb (is_whitespace c) && plain rest
  end.

Fixpoint no_whitespace (s : string) : bool :=
  match s with
  | EmptyString => true
  | String c rest => negb (is_whitespace c) && no_whitespace rest
  end.




Definition plain_part (p : part) : Prop :=
  match p with
  | Text _ => True
  | Field v => no_whitespace v = true
  end.

(** The word read so far, as parts in reverse. *)
Definition flush (word : list part) : list string :=
  match fstring (rev word) with
  | EmptyString => []
  | w => [w]
  end.

(** The split of a literal, continued by [k] with the word left open. *)
Fixpoint words_text (t : string) (word : list part)
    (k : list part -> list string) : list string :=
  match t with
  | EmptyString => k word
  | String c rest =>
      if is_whitespace c then flush word ++ words_text rest [] k
      else words_text rest (Text (String c EmptyString) :: word) k
  end.

(** The split of an f-string whose fields hold no whitespace. *)
Fixpoint words_parts (parts : list part) (word : list part) : list string :=
  match parts with
  | [] => flush word
  | Text t :: rest => words_text t word (fun w => words_parts rest w)
  | Field v :: rest => words_parts rest (Field v :: word)
  end.

End TextAux.
Export TextAux.

(* ================================================================== *)
(** * The specification's statements, as it words them *)

Module Stated.

(** The session id is set once, by the first session-created message. *)
Definition session_id_write_once : Prop :=
  forall (first second : string) (w : world),
    session_id (self w) = JNull ->
    session_id
      (self (final (react_all
                      [Message (session_created_message (JStr first));
                       Message (session_created_message (JStr second))] w)))
    = JStr first.


(** An answer handled while no offer is out changes nothing. *)
Definition answer_needs_offer_sent : Prop :=
  forall (evs : list event) (sdp : string) (w : world),
    let before := react_all evs w in
    offer_sent (trace before) false = false ->
    let o := _handle_signaling_message (answer_message sdp) (final before) in
    engine_calls (trace o) = [] /\ final o = final before.

(** At most one offer is in flight at any time. *)
Definition single_offer_in_flight : Prop :=
  forall (evs : list event) (w : world),
    (max_in_flight (trace (react_all evs w)) <= 1)%nat.

(** Sending without an open channel fails with an error. *)
Definition send_fails_when_not_connected : Prop :=
  forall (message : json) (failure : option exn) (w : world),
    websocket (self w) = None ->
    exists e, result (_send_signaling_message message failure w) = Raises e.

(** A frame that does not decode and a message of an unknown type are
    both reported as errors, change nothing and do not end the loop. *)
Definition malformed_messages_reported : Prop :=
  forall (json_loads : string -> json + loads_error) (frame : string)
         (w : world),
    ((exists err, json_loads frame = inr err) \/
     exists d, json_loads frame = inl (JObj d) /\
               recognized_type (get d "type") = false) ->
    let o := receive_one json_loads frame w in
    existsb is_error_log (trace o) = true /\
    final o = w /\ result o = Returns tt.

(** A second [stop], after the first or while it is in progress, adds no
    teardown action. *)
Definition stop_idempotent : Prop :=
  (forall w : world,
     filter is_teardown (trace ((stop ;; stop) w)) =
     filter is_teardown (trace (stop w))) /\
  (forall (n : nat) (w : world),
     filter is_teardown (trace (stop_interrupted n w)) =
     filter is_teardown (trace (stop w))).


(** The process starts only with two positive integers. *)
Definition starts_only_with_positive_size : Prop :=
  forall (max_str_digits : nat) (a : args) (s : streamer),
    main_startup max_str_digits a = Created s ->
    (0 < width s)%Z /\ (0 < height s)%Z.


End Stated.
Export Stated.

(* ================================================================== *)
(** * Laws of the monad used by the proofs *)

Section MonadLaws.

Context {A B : Type}.

Lemma bind_returns (c : Py A) (k : A -> Py B) (w : world) (a : A) :
  result (c w) = Returns a ->
  bind c k w =
  mkOutcome (result (k a (final (c w)))) (final (k a (final (c w))))
    (trace (c w) ++ trace (k a (final (c w)))).
Proof. intros H. unfold bind. rewrite H. reflexivity. Qed.

Lemma bind_raises (c : Py A) (k : A -> Py B) (w : world) (e : exn) :
  result (c w) = Raises e ->
  bind c k w = mkOutcome (Raises e) (final (c w)) (trace (c w)).
Proof. intros H. unfold bind. rewrite H. reflexivity. Qed.

Lemma bind_run (c : Py A) (k : A -> Py B) (w w' : world) (a : A)
    (t : list effect) :
  c w = mkOutcome (Returns a) w' t ->
  bind c k w =
  mkOutcome (result (k a w')) (final (k a w')) (t ++ trace (k a w')).
Proof. intros H. unfold bind. rewrite H. reflexivity. Qed.

End MonadLaws.

Lemma bind_assoc {A B C : Type} (c : Py A) (k : A -> Py B) (h : B -> Py C)
    (w : world) :
  bind (bind c k) h w = bind c (fun a => bind (k a) h) w.
Proof.
  unfold bind. destruct (c w) as [[a|e] f t]; simpl; [|reflexivity].
  destruct (k a f) as [[b|e] f' t']; simpl; [|reflexivity].
  destruct (h b f') as [r f'' t'']; simpl. rewrite app_assoc. reflexivity.
Qed.

Lemma bind_ext {A B : Type} (c : Py A) (k k' : A -> Py B) (w : world) :
  (forall a w', k a w' = k' a w') -> bind c k w = bind c k' w.
Proof. intros H. unfold bind. destruct (result (c w)); rewrite ?H; reflexivity. Qed.

Lemma ret_bind {A B : Type} (a : A) (k : A -> Py B) (w : world) :
  bind (ret a) k w = k a w.
Proof. unfold bind, ret. simpl. destruct (k a w); reflexivity. Qed.

Lemma react_all_app (xs ys : list event) (w : world) :
  react_all (xs ++ ys) w = (react_all xs ;; react_all ys) w.
Proof.
  revert w. induction xs as [|x xs IH]; intros w; simpl.
  - rewrite ret_bind. reflexivity.
  - rewrite bind_assoc. apply bind_ext. intros _ w'. apply IH.
Qed.


Lemma count_app (p : effect -> bool) (t u : list effect) :
  count p (t ++ u) = (count p t + count p u)%nat.
Proof. unfold count. rewrite filter_app, length_app. reflexivity. Qed.

(* ================================================================== *)
(** * The session id *)

(** C4, as stated, fails: after session-created "abc123" a second
    session-created with another id replaces the stored id. *)
Lemma session_id_write_once_fails : ~ session_id_write_once.
Proof.
  intros H. specialize (H "abc123" "xyz789" fresh eq_refl).
  vm_compute in H. discriminate H.
Qed.

Lemma handle_session_created_run (d : dict) (w : world) :
  get d "type" = JStr "session-created" ->
  _handle_signaling_message (JObj d) w =
  mkOutcome (Returns tt)
    (mkWorld (with_session_id (get d "session_id") (self w)) (ready w))
    [Log INFO "Session created: " (JsonArg (get d "session_id"))].
Proof.
  intros H. unfold _handle_signaling_message. rewrite H. reflexivity.
Qed.

(** C4, as the code has it: every session-created message stores its
    [session_id] field (None when absent) over whatever was stored,
    changes nothing else and logs the id it stored, in one line at level
    INFO; after a run of such messages the stored id is the one of the
    last message. *)
Theorem session_created_overwrites_session_id :
  (forall (d : dict) (w : world),
     get d "type" = JStr "session-created" ->
     let o := _handle_signaling_message (JObj d) w in
     result o = Returns tt /\
     final o =
       mkWorld (with_session_id (get d "session_id") (self w)) (ready w) /\
     trace o =
       [Log INFO "Session created: " (JsonArg (get d "session_id"))]) /\
  (forall (ids : list json) (id : json) (w : world),
     let o := react_all
                (map (fun i => Message (session_created_message i))
                     (ids ++ [id])) w in
     result o = Returns tt /\ session_id (self (final o)) = id).
Proof.
  split.
  - intros d w H o. subst o. rewrite (handle_session_created_run d w H).
    split; [reflexivity|]. split; reflexivity.
  - induction ids as [|i ids IH]; intros id w.
    + split; reflexivity.
    + specialize (IH id
        (mkWorld (with_session_id i (self w)) (ready w))).
      cbn zeta in IH. destruct IH as [IHr IHs].
      cbn zeta. simpl map. simpl react_all.
      unfold bind at 1. simpl (result _). cbn iota.
      simpl (final _). split; [exact IHr | exact IHs].
Qed.

Lemma session_created_overwrites_session_id_witness :
  let first := _handle_signaling_message
                 (session_created_message (JStr "abc123")) fresh in
  let second := _handle_signaling_message
                  (session_created_message (JStr "xyz789")) (final first) in
  session_id (self (final first)) = JStr "abc123" /\
  session_id (self (final second)) = JStr "xyz789" /\
  trace second = [Log INFO "Session created: " (JsonArg (JStr "xyz789"))].
Proof.
  cbn zeta. destruct session_created_overwrites_session_id as [one _].
  split; [reflexivity|].
  destruct (one [("type", JStr "session-created");
                 ("session_id", JStr "xyz789")]
              (final (_handle_signaling_message
                        (session_created_message (JStr "abc123")) fresh))
              eq_refl) as (_ & Hf & Ht).
  split; [|exact Ht].
  exact (f_equal (fun w => session_id (self w)) Hf).
Defined.


(* ================================================================== *)
(** * Remote candidates and answers *)

Lemma truthy_nonempty (text : string) :
  text <> EmptyString -> truthy (JStr text) = true.
Proof.
  intros H. simpl. destruct (String.eqb_spec text EmptyString); [contradiction|reflexivity].
Qed.


Lemma handle_answer_run (d : dict) (text : string) (w : world) :
  webrtcbin (self w) <> None ->
  get d "type" = JStr "answer" ->
  get d "sdp" = JStr text ->
  text <> EmptyString ->
  _handle_signaling_message (JObj d) w =
  mkOutcome (Returns tt) w
    [Log INFO "Received SDP answer" NoArg; EmitSetRemoteDescription text].
Proof.
  intros Hbin Htype Hsdp Htext.
  unfold _handle_signaling_message. rewrite Htype. cbn [is_str String.eqb Ascii.eqb Bool.eqb].
  unfold handle_answer. rewrite Hsdp, (truthy_nonempty text Htext).
  unfold webrtcbin_emit, bind, log, tell, get_self. simpl.
  destruct (webrtcbin (self w)); [reflexivity|contradiction].
Qed.

Lemma handle_answer_skip (d : dict) (w : world) :
  get d "type" = JStr "answer" ->
  truthy (get d "sdp") = false ->
  _handle_signaling_message (JObj d) w = mkOutcome (Returns tt) w [].
Proof.
  intros Htype Hsdp.
  unfold _handle_signaling_message. rewrite Htype. cbn [is_str String.eqb Ascii.eqb Bool.eqb].
  unfold handle_answer. rewrite Hsdp. reflexivity.
Qed.

Lemma answer_message_run (sdp : string) (w : world) :
  webrtcbin (self w) <> None ->
  sdp <> EmptyString ->
  _handle_signaling_message (answer_message sdp) w =
  mkOutcome (Returns tt) w
    [Log INFO "Received SDP answer" NoArg; EmitSetRemoteDescription sdp].
Proof.
  intros Hbin Hsdp. unfold answer_message.
  apply handle_answer_run; [exact Hbin|reflexivity|reflexivity|exact Hsdp].
Qed.





(** C3, as stated, fails: an answer handled when no offer was ever sent
    is applied as the remote description. *)
Lemma answer_needs_offer_sent_fails : ~ answer_needs_offer_sent.
Proof.
  intros H. specialize (H [] "v=0" started eq_refl).
  destruct H as [H _]. vm_compute in H. discriminate H.
Qed.

(** C3, as the code has it: an answer whose [sdp] is a non-empty string
    that has a UTF-8 encoding is applied as the remote description
    whenever it is handled, whatever came before, and leaves the streamer
    unchanged; a second answer is applied after, and so over, the first;
    an answer whose [sdp] is missing or empty is skipped without a log
    line; an answer whose [sdp] is a string with a lone surrogate is
    logged as received and then raises UnicodeEncodeError, nothing of it
    reaching the engine. *)
Theorem answer_applied_whenever_handled :
  forall (w : world),
    webrtcbin (self w) <> None ->
    (forall (d : dict) (text : string),
       get d "type" = JStr "answer" ->
       get d "sdp" = JStr text ->
       text <> EmptyString ->
       _handle_signaling_message (JObj d) w =
       mkOutcome (Returns tt) w
         [Log INFO "Received SDP answer" NoArg;
          EmitSetRemoteDescription text]) /\
    (forall first second : string,
       first <> EmptyString -> second <> EmptyString ->
       engine_calls
         (trace (react_all [Message (answer_message first);
                            Message (answer_message second)] w))
       = [EmitSetRemoteDescription first; EmitSetRemoteDescription second]) /\
    (forall d : dict,
       get d "type" = JStr "answer" ->
       truthy (get d "sdp") = false ->
       _handle_signaling_message (JObj d) w = mkOutcome (Returns tt) w []) /\
    (forall (d : dict) (code_points : list Z),
       get d "type" = JStr "answer" ->
       get d "sdp" = JSurrogates code_points ->
       code_points <> [] ->
       _handle_signaling_message (JObj d) w =
       mkOutcome (Raises UnicodeEncodeError) w
         [Log INFO "Received SDP answer" NoArg]).
Proof.
  intros w Hbin. split; [|split; [|split]].
  - intros d text. apply handle_answer_run. exact Hbin.
  - intros first second Hf Hs. cbn [react_all react].
    rewrite (bind_run _ _ _ _ _ _ (answer_message_run first w Hbin Hf)).
    rewrite (bind_run _ _ _ _ _ _ (answer_message_run second w Hbin Hs)).
    reflexivity.
  - intros d. apply handle_answer_skip.
  - intros d code_points Htype Hsdp Hne.
    unfold _handle_signaling_message. rewrite Htype.
    cbn [is_str String.eqb Ascii.eqb Bool.eqb].
    unfold handle_answer. rewrite Hsdp.
    destruct code_points as [|c rest]; [congruence|reflexivity].
Qed.

Lemma answer_applied_whenever_handled_witness :
  engine_calls
    (trace (react_all [Message (answer_message "v=0");
                       Message (answer_message "v=1")] started))
  = [EmitSetRemoteDescription "v=0"; EmitSetRemoteDescription "v=1"] /\
  _handle_signaling_message
    (JObj [("type", JStr "answer"); ("sdp", JSurrogates [55296%Z])]) started
  = mkOutcome (Raises UnicodeEncodeError) started
      [Log INFO "Received SDP answer" NoArg].
Proof.
  assert (Hbin : webrtcbin (self started) <> None) by (vm_compute; discriminate).
  destruct (answer_applied_whenever_handled started Hbin)
    as (_ & Htwice & _ & Hlone).
  split.
  - apply Htwice; discriminate.
  - apply (Hlone [("type", JStr "answer"); ("sdp", JSurrogates [55296%Z])]
             [55296%Z]); [reflexivity|reflexivity|discriminate].
Defined.


(* ================================================================== *)
(** * Offers *)

(** C2, as stated, fails: two negotiation-needed events in a row ask the
    engine for two offers, none of them acknowledged. *)
Lemma single_offer_in_flight_fails : ~ single_offer_in_flight.
Proof.
  intros H. specialize (H [NegotiationNeeded; NegotiationNeeded] started).
  vm_compute in H. lia.
Qed.

Lemma negotiation_needed_run (n : nat) (w : world) :
  react_all (repeat NegotiationNeeded n) w =
  mkOutcome (Returns tt) w (negotiation_trace n).
Proof.
  induction n as [|n IH]; [reflexivity|].
  cbn [repeat react_all react].
  rewrite (bind_run _ _ w w tt
             [Log INFO "Negotiation needed, creating offer..." NoArg;
              EmitCreateOffer] eq_refl).
  rewrite IH. reflexivity.
Qed.

Lemma in_flight_negotiation (n now high : nat) :
  (now <= high)%nat ->
  in_flight (negotiation_trace n) now high = Nat.max high (now + n).
Proof.
  revert now high. induction n as [|n IH]; intros now high Hle.
  - simpl. lia.
  - cbn [negotiation_trace in_flight]. rewrite IH by lia. lia.
Qed.

Lemma count_negotiation (n : nat) :
  count is_create_offer (negotiation_trace n) = n.
Proof.
  induction n as [|n IH]; [reflexivity|].
  unfold count in *. cbn [negotiation_trace filter is_create_offer length].
  rewrite IH. reflexivity.
Qed.

(** C2, as the code has it: every negotiation-needed event asks the
    engine for an offer, whatever the streamer's state and whatever
    offers are pending; [n] events in a row give [n] create-offer
    requests, all in flight together. *)
Theorem every_negotiation_needed_creates_offer :
  (forall w : world,
     _on_negotiation_needed w =
     mkOutcome (Returns tt) w
       [Log INFO "Negotiation needed, creating offer..." NoArg;
        EmitCreateOffer]) /\
  (forall (n : nat) (w : world),
     let o := react_all (repeat NegotiationNeeded n) w in
     result o = Returns tt /\ final o = w /\
     count is_create_offer (trace o) = n /\
     max_in_flight (trace o) = n).
Proof.
  split; [reflexivity|].
  intros n w o. subst o. rewrite negotiation_needed_run. cbn [result final trace].
  repeat split.
  - apply count_negotiation.
  - unfold max_in_flight. rewrite in_flight_negotiation by lia. lia.
Qed.

(* ================================================================== *)
(** * Sending *)

(** C6, as stated, fails: without a websocket the send returns normally
    and does nothing. *)
Lemma send_fails_when_not_connected_fails : ~ send_fails_when_not_connected.
Proof.
  intros H.
  destruct (H (register_message (self fresh)) None fresh eq_refl) as [e He].
  vm_compute in He. discriminate He.
Qed.

(** C6, as the code has it: [_send_signaling_message] never raises an
    [Exception] to its caller. Without a websocket it returns without any
    effect (the message is dropped, nothing is logged); with one, a send
    that fails with an [Exception] is logged and the call returns; a send
    that does not fail transmits the message. *)
Theorem send_drops_or_logs_instead_of_raising :
  forall (message : json) (w : world),
    (websocket (self w) = None ->
     forall failure : option exn,
       _send_signaling_message message failure w = mkOutcome (Returns tt) w []) /\
    (websocket (self w) <> None ->
     (forall e : exn,
        is_Exception e = true ->
        _send_signaling_message message (Some e) w =
        mkOutcome (Returns tt) w
          [Log ERROR "Failed to send signaling message: " (ExnArg e)]) /\
     _send_signaling_message message None w =
     mkOutcome (Returns tt) w [Send message]).
Proof.
  intros message w. split.
  - intros Hws failure. unfold _send_signaling_message, bind, get_self.
    cbn [result final trace]. rewrite Hws. reflexivity.
  - intros Hws. split.
    + intros e He. unfold _send_signaling_message, bind, get_self.
      cbn [result final trace].
      destruct (websocket (self w)); [|contradiction].
      unfold try_except, websocket_send, raise, log, tell.
      cbn [result final trace]. rewrite He. reflexivity.
    + unfold _send_signaling_message, bind, get_self.
      cbn [result final trace].
      destruct (websocket (self w)); [reflexivity|contradiction].
Qed.

Lemma send_drops_or_logs_instead_of_raising_witness :
  websocket (self fresh) = None /\
  _send_signaling_message (register_message (self fresh)) None fresh =
  mkOutcome (Returns tt) fresh [] /\
  websocket (self connected) <> None /\
  _send_signaling_message (register_message (self fresh))
    (Some ConnectionClosedError) connected =
  mkOutcome (Returns tt) connected
    [Log ERROR "Failed to send signaling message: "
       (ExnArg ConnectionClosedError)].
Proof.
  assert (Hws : websocket (self connected) <> None) by (vm_compute; discriminate).
  destruct (send_drops_or_logs_instead_of_raising
              (register_message (self fresh)) fresh) as [Hdrop _].
  destruct (send_drops_or_logs_instead_of_raising
              (register_message (self fresh)) connected) as [_ Hlog].
  destruct (Hlog Hws) as [Hlogged _].
  split; [reflexivity|].
  split; [apply Hdrop; reflexivity|].
  split; [exact Hws|].
  apply Hlogged. reflexivity.
Defined.


(* ================================================================== *)
(** * What handling a message can do *)

Ltac unchanged :=
  cbn; split; [reflexivity | split; [repeat constructor | left; reflexivity]].

Lemma handle_effects (data : json) (w : world) :
  let o := _handle_signaling_message data w in
  ready (final o) = ready w /\
  Forall local_effect (trace o) /\
  (self (final o) = self w \/
   exists d, data = JObj d /\
             get d "type" = JStr "session-created" /\
             self (final o) = with_session_id (get d "session_id") (self w)).
Proof.
  destruct data as [| b | n | s | xs | d | cps]; try unchanged.
  cbn zeta. unfold _handle_signaling_message.
  destruct (get d "type") as [| b | n | s | xs | items | cps] eqn:Htype;
    try unchanged.
  cbn [is_str].
  destruct (String.eqb s "answer") eqn:Ha.
  { unfold handle_answer.
    destruct (truthy (get d "sdp")); [|unchanged].
    unfold webrtcbin_emit, bind, log, tell, get_self, raise.
    destruct (get d "sdp"); try unchanged.
    cbn. destruct (webrtcbin (self w)); unchanged. }
  destruct (String.eqb s "ice-candidate") eqn:Hi.
  { unfold handle_ice_candidate.
    destruct (truthy (get d "candidate")); [|unchanged].
    unfold webrtcbin_emit, bind, log, tell, get_self, raise. cbn.
    destruct (webrtcbin (self w)); unchanged. }
  destruct (String.eqb s "session-created") eqn:Hs.
  { apply String.eqb_eq in Hs. subst s. cbn.
    split; [reflexivity|]. split; [repeat constructor|].
    right. exists d. split; [reflexivity|]. split; [exact Htype|reflexivity]. }
  destruct (String.eqb s "error"); unchanged.
Qed.

(* ================================================================== *)
(** * Messages produced before a session id is known *)

Lemma state_changed_run (src : handle) (old new : string) (w : world) :
  exists t,
    _on_bus_message (MsgStateChanged src old new) w =
    mkOutcome (Returns tt) w t /\
    Forall local_effect t.
Proof.
  unfold _on_bus_message, bind, get_self. cbn [result final trace].
  destruct (pipeline (self w)) as [p|].
  - destruct (Nat.eqb src p); eexists; (split; [reflexivity|]);
      repeat constructor.
  - eexists. split; [reflexivity|]. constructor.
Qed.









(* ================================================================== *)
(** * Frames that do not decode, and unknown message types *)

(** C7, as stated, fails: a decoded object with an unknown type is
    dropped without any log line. *)
Lemma malformed_messages_reported_fails : ~ malformed_messages_reported.
Proof.
  intros H.
  destruct (H sample_loads "bogus-frame" fresh) as [Hlog _].
  - right. exists [("type", JStr "bogus")]. split; reflexivity.
  - vm_compute in Hlog. discriminate Hlog.
Qed.

Lemma unknown_type_run (d : dict) (w : world) :
  recognized_type (get d "type") = false ->
  _handle_signaling_message (JObj d) w = mkOutcome (Returns tt) w [].
Proof.
  unfold recognized_type. intros H.
  apply orb_false_iff in H as [H Herr].
  apply orb_false_iff in H as [H Hsess].
  apply orb_false_iff in H as [Hans Hice].
  unfold _handle_signaling_message. rewrite Hans, Hice, Hsess, Herr.
  reflexivity.
Qed.

Section Receive.

Variable json_loads : string -> json + loads_error.

Lemma receive_one_undecodable (frame : string) (w : world) :
  json_loads frame = inr NotJson ->
  receive_one json_loads frame w =
  mkOutcome (Returns tt) w
    [Log ERROR "Invalid JSON message: " (StrArg frame)].
Proof.
  intros H. unfold receive_one, try_except, bind, loads. rewrite H.
  reflexivity.
Qed.

(** Another failure of [json.loads] passes the [except] clause. *)
Lemma receive_one_other_failure (frame : string) (err : loads_error)
    (w : world) :
  json_loads frame = inr err ->
  err <> NotJson ->
  receive_one json_loads frame w = mkOutcome (Raises (loads_exn err)) w [].
Proof.
  intros H Herr. unfold receive_one, try_except, bind, loads. rewrite H.
  destruct err; [congruence|..]; reflexivity.
Qed.

Lemma receive_one_unknown (frame : string) (d : dict) (w : world) :
  json_loads frame = inl (JObj d) ->
  recognized_type (get d "type") = false ->
  receive_one json_loads frame w = mkOutcome (Returns tt) w [].
Proof.
  intros H Htype. unfold receive_one, try_except, bind, loads. rewrite H.
  cbn [ret result final trace]. rewrite (unknown_type_run d w Htype).
  reflexivity.
Qed.

End Receive.

(** C7, as the code has it: a frame on which [json.loads] raises
    JSONDecodeError is logged as an error and dropped, and a decoded
    object of an unknown type is dropped without a log line; in both cases
    the streamer is unchanged and the receive loop goes on with the next
    frame. A frame on which [json.loads] fails in another way (bytes that
    are no text, nesting too deep, a number too long) is not logged by the
    loop: the exception leaves it, and the frames after it are never
    handled. *)
Theorem json_errors_logged_unknown_type_dropped :
  forall (json_loads : string -> json + loads_error) (frame : string)
         (rest : list string) (w : world),
    (json_loads frame = inr NotJson ->
     receive_one json_loads frame w =
     mkOutcome (Returns tt) w
       [Log ERROR "Invalid JSON message: " (StrArg frame)] /\
     receive_loop json_loads (frame :: rest) w =
     let o := receive_loop json_loads rest w in
     mkOutcome (result o) (final o)
       (Log ERROR "Invalid JSON message: " (StrArg frame) :: trace o)) /\
    (forall err : loads_error,
       json_loads frame = inr err ->
       err <> NotJson ->
       is_JSONDecodeError (loads_exn err) = false /\
       is_Exception (loads_exn err) = true /\
       receive_loop json_loads (frame :: rest) w =
       mkOutcome (Raises (loads_exn err)) w []) /\
    (forall d : dict,
       json_loads frame = inl (JObj d) ->
       recognized_type (get d "type") = false ->
       receive_one json_loads frame w = mkOutcome (Returns tt) w [] /\
       receive_loop json_loads (frame :: rest) w =
       receive_loop json_loads rest w).
Proof.
  intros json_loads frame rest w. split; [|split].
  - intros H. split; [apply receive_one_undecodable; exact H|].
    cbn [receive_loop].
    rewrite (bind_run _ _ _ _ _ _ (receive_one_undecodable _ frame w H)).
    reflexivity.
  - intros err H Herr.
    split; [destruct err; [congruence|..]; reflexivity|].
    split; [destruct err; reflexivity|].
    cbn [receive_loop]. unfold bind.
    rewrite (receive_one_other_failure _ frame err w H Herr). reflexivity.
  - intros d H Htype. split; [apply (receive_one_unknown _ frame d); assumption|].
    cbn [receive_loop].
    rewrite (bind_run _ _ _ _ _ _ (receive_one_unknown _ frame d w H Htype)).
    destruct (receive_loop json_loads rest w); reflexivity.
Qed.

Lemma json_errors_logged_unknown_type_dropped_witness :
  receive_one sample_loads "not json" fresh =
  mkOutcome (Returns tt) fresh
    [Log ERROR "Invalid JSON message: " (StrArg "not json")] /\
  receive_loop (fun _ => inr NotText) ["binary"; "later"] fresh =
  mkOutcome (Raises UnicodeDecodeError) fresh [] /\
  receive_one sample_loads "bogus-frame" fresh = mkOutcome (Returns tt) fresh [].
Proof.
  destruct (json_errors_logged_unknown_type_dropped
              sample_loads "not json" [] fresh) as (Hbad & _ & _).
  destruct (json_errors_logged_unknown_type_dropped
              (fun _ => inr NotText) "binary" ["later"] fresh)
    as (_ & Hother & _).
  destruct (json_errors_logged_unknown_type_dropped
              sample_loads "bogus-frame" [] fresh) as (_ & _ & Hunknown).
  split; [apply Hbad; reflexivity|].
  split.
  - destruct (Hother NotText eq_refl) as (_ & _ & Hloop);
      [discriminate|exact Hloop].
  - apply (Hunknown [("type", JStr "bogus")]); reflexivity.
Defined.

(* ================================================================== *)
(** * stop *)

(** C8, as stated, fails for a second call made while the first is in
    progress: when the signal handler runs after [set_state(NULL)] and
    before [self.pipeline = None], its [stop] sets the pipeline to NULL
    once more. *)
Lemma stop_idempotent_fails : ~ stop_idempotent.
Proof.
  intros [_ H]. specialize (H 3%nat started). vm_compute in H. discriminate H.
Qed.

(** The statement-wise reading of [stop] agrees with [stop]. *)
Lemma stop_steps_agree (w : world) :
  let o := stop_steps 10 AtLogStopping w in
  result o = Returns AtReturn /\
  final o = final (stop w) /\ trace o = trace (stop w).
Proof.
  destruct w as [s q]. destruct s as [d wd h f b u st p bin ws l id].
  destruct p, ws, l; cbn; repeat split.
Qed.



(* ================================================================== *)
(** * One connection per run *)

Lemma count_local (p : effect -> bool) (t : list effect) :
  (forall e, local_effect e -> p e = false) ->
  Forall local_effect t -> count p t = 0%nat.
Proof.
  intros Hp H. unfold count. induction H as [|e t He _ IH]; [reflexivity|].
  cbn [filter]. rewrite (Hp e He). exact IH.
Qed.

Lemma is_connect_local (e : effect) : local_effect e -> is_connect e = false.
Proof. destruct e; simpl; intros H; try reflexivity; contradiction. Qed.

Lemma is_register_local (e : effect) : local_effect e -> is_register e = false.
Proof. destruct e; simpl; intros H; try reflexivity; contradiction. Qed.

Section Loop.

Variable json_loads : string -> json + loads_error.

Lemma receive_one_effects (frame : string) (w : world) :
  let o := receive_one json_loads frame w in
  Forall local_effect (trace o) /\
  websocket (self (final o)) = websocket (self w) /\
  pipeline (self (final o)) = pipeline (self w) /\
  loop (self (final o)) = loop (self w).
Proof.
  cbn zeta. unfold receive_one, try_except, bind, loads.
  destruct (json_loads frame) as [data|err];
    cbn [ret raise result final trace].
  - destruct (handle_effects data w) as (_ & Ht & Hs).
    assert (Hsame : websocket (self (final (_handle_signaling_message data w)))
                    = websocket (self w) /\
                    pipeline (self (final (_handle_signaling_message data w)))
                    = pipeline (self w) /\
                    loop (self (final (_handle_signaling_message data w)))
                    = loop (self w)).
    { destruct Hs as [Hs | (d & _ & _ & Hs)]; rewrite Hs; repeat split. }
    destruct (result (_handle_signaling_message data w)) as [[]|e];
      cbn [result final trace].
    + split; [exact Ht|exact Hsame].
    + destruct (is_JSONDecodeError e); cbn [result final trace].
      * split; [|exact Hsame]. apply Forall_app. split; [exact Ht|].
        repeat constructor.
      * split; [exact Ht|exact Hsame].
  - destruct err; cbn; repeat split; repeat constructor.
Qed.

Lemma receive_loop_effects (frames : list string) (w : world) :
  let o := receive_loop json_loads frames w in
  Forall local_effect (trace o) /\
  websocket (self (final o)) = websocket (self w) /\
  pipeline (self (final o)) = pipeline (self w) /\
  loop (self (final o)) = loop (self w).
Proof.
  revert w. induction frames as [|frame rest IH]; intros w; cbn zeta.
  - cbn. repeat split. constructor.
  - cbn [receive_loop]. unfold bind.
    destruct (receive_one_effects frame w) as (Ht & Hws & Hp & Hl).
    destruct (result (receive_one json_loads frame w)) as [[]|e];
      cbn [result final trace].
    + destruct (IH (final (receive_one json_loads frame w)))
        as (Ht' & Hws' & Hp' & Hl').
      split; [apply Forall_app; split; assumption|].
      rewrite Hws', Hp', Hl'. repeat split; assumption.
    + repeat split; assumption.
Qed.

End Loop.

Lemma start_effects (env : engine_env) (w : world) :
  let o := start env w in
  count is_connect (trace o) = 0%nat /\
  count is_register (trace o) = 0%nat /\
  websocket (self (final o)) = websocket (self w) /\
  loop (self (final o)) = loop (self w).
Proof.
  destruct env as [l fl sr ok]. destruct w as [s q].
  destruct s as [d wd h f b u st p bin ws lp id].
  destruct st as [|c st]; destruct l, fl, sr, ok;
    lazy; repeat split.
Qed.

Lemma stop_effects (w : world) :
  let o := stop w in
  result o = Returns tt /\
  count is_connect (trace o) = 0%nat /\
  count is_register (trace o) = 0%nat /\
  pipeline (self (final o)) = None /\
  websocket (self (final o)) = None /\
  loop (self (final o)) = loop (self w).
Proof.
  destruct w as [s q]. destruct s as [d wd h f b u st p bin ws l id].
  destruct p, ws, l; lazy; repeat split.
Qed.

Section AtMost.

Context {A B : Type}.

Lemma at_most_seq (a b a' b' nc nr : nat) (c : Py A) (k : A -> Py B) :
  at_most a b c ->
  (forall x, at_most a' b' (k x)) ->
  (a + a' <= nc)%nat -> (b + b' <= nr)%nat ->
  at_most nc nr (bind c k).
Proof.
  intros Hc Hk Ha Hb w. unfold bind.
  destruct (Hc w) as (H1 & H2 & H3).
  destruct (result (c w)) as [x|e]; cbn [result final trace].
  - destruct (Hk x (final (c w))) as (K1 & K2 & K3).
    rewrite !count_app. split; [lia|]. split; [lia|congruence].
  - split; [lia|]. split; [lia|assumption].
Qed.

Lemma at_most_try (a b a' b' nc nr : nat) (c : Py A) (catches : exn -> bool)
    (handler : exn -> Py A) :
  at_most a b c ->
  (forall e, at_most a' b' (handler e)) ->
  (a + a' <= nc)%nat -> (b + b' <= nr)%nat ->
  at_most nc nr (try_except c catches handler).
Proof.
  intros Hc Hh Ha Hb w. unfold try_except.
  destruct (Hc w) as (H1 & H2 & H3).
  destruct (result (c w)) as [x|e]; cbn [result final trace].
  - split; [lia|]. split; [lia|assumption].
  - destruct (catches e); cbn [result final trace].
    + destruct (Hh e (final (c w))) as (K1 & K2 & K3).
      rewrite !count_app. split; [lia|]. split; [lia|congruence].
    + split; [lia|]. split; [lia|assumption].
Qed.

Lemma at_most_ret (nc nr : nat) (x : A) : at_most nc nr (ret x).
Proof. intros w. unfold count. cbn. repeat split; lia. Qed.

Lemma at_most_raise (nc nr : nat) (e : exn) : at_most nc nr (@raise A e).
Proof. intros w. unfold count. cbn. repeat split; lia. Qed.

End AtMost.

Lemma at_most_tell (nc nr : nat) (e : effect) :
  is_connect e = false -> is_register e = false -> at_most nc nr (tell e).
Proof.
  intros Hc Hr w. unfold count. cbn [tell result final trace filter].
  rewrite Hc, Hr. cbn. repeat split; lia.
Qed.

Lemma at_most_log (nc nr : nat) (lv : level) (text : string) (arg : log_arg) :
  at_most nc nr (log lv text arg).
Proof. apply at_most_tell; reflexivity. Qed.

Lemma at_most_connect (nr : nat) (url : string) :
  at_most 1 nr (tell (Connect url)).
Proof. intros w. unfold count. cbn. repeat split; lia. Qed.

Lemma at_most_send (nc : nat) (message : json) :
  at_most nc 1 (tell (Send message)).
Proof.
  intros w. unfold count. cbn [tell result final trace filter is_connect].
  destruct (is_register (Send message)); cbn; repeat split; lia.
Qed.

Lemma at_most_get_self (nc nr : nat) : at_most nc nr get_self.
Proof. intros w. unfold count. cbn. repeat split; lia. Qed.

Lemma at_most_with_websocket (nc nr : nat) (ws : option handle) :
  at_most nc nr (modify_self (with_websocket ws)).
Proof. intros w. unfold count. cbn. repeat split; lia. Qed.

Lemma at_most_of_local {A : Type} (c : Py A) :
  (forall w, Forall local_effect (trace (c w)) /\
             loop (self (final (c w))) = loop (self w)) ->
  at_most 0 0 c.
Proof.
  intros H w. destruct (H w) as [Ht Hl].
  rewrite (count_local _ _ is_connect_local Ht).
  rewrite (count_local _ _ is_register_local Ht).
  repeat split; [lia|lia|exact Hl].
Qed.

Lemma at_most_send_signaling_message (message : json) (failure : option exn) :
  at_most 0 1 (_send_signaling_message message failure).
Proof.
  unfold _send_signaling_message.
  apply (at_most_seq 0 0 0 1); [apply at_most_get_self| |lia|lia].
  intros s. destruct (websocket s); [|apply at_most_ret].
  apply (at_most_try 0 1 0 0); [| |lia|lia].
  - unfold websocket_send.
    destruct failure; [apply at_most_raise|apply at_most_send].
  - intros e. apply at_most_log.
Qed.

Lemma at_most_start (env : engine_env) : at_most 0 0 (start env).
Proof.
  intros w. destruct (start_effects env w) as (Hc & Hr & _ & Hl).
  rewrite Hc, Hr. repeat split; [lia|lia|exact Hl].
Qed.

Lemma at_most_stop : at_most 0 0 stop.
Proof.
  intros w. destruct (stop_effects w) as (_ & Hc & Hr & _ & _ & Hl).
  rewrite Hc, Hr. repeat split; [lia|lia|exact Hl].
Qed.

Section Connection.

Variable json_loads : string -> json + loads_error.

Lemma at_most_receive_loop (frames : list string) :
  at_most 0 0 (receive_loop json_loads frames).
Proof.
  apply at_most_of_local. intros w.
  destruct (receive_loop_effects json_loads frames w) as (Ht & _ & _ & Hl).
  split; assumption.
Qed.

Lemma at_most_connect_signaling (env : signaling_env) :
  at_most 1 1 (connect_signaling json_loads env).
Proof.
  unfold connect_signaling.
  apply (at_most_seq 0 0 1 1); [apply at_most_get_self| |lia|lia].
  intros s.
  apply (at_most_seq 0 0 1 1); [apply at_most_log| |lia|lia].
  intros _.
  apply (at_most_try 1 1 0 0); [| |lia|lia].
  - apply (at_most_seq 1 0 0 1); [| |lia|lia].
    + unfold websockets_connect.
      apply (at_most_seq 1 0 0 0); [apply at_most_connect| |lia|lia].
      intros _. destruct (connect_result env);
        [apply at_most_with_websocket|apply at_most_raise].
    + intros _.
      apply (at_most_seq 0 0 0 1); [apply at_most_log| |lia|lia].
      intros _.
      apply (at_most_seq 0 1 0 0);
        [apply at_most_send_signaling_message| |lia|lia].
      intros _.
      apply (at_most_seq 0 0 0 0); [apply at_most_receive_loop| |lia|lia].
      intros _. destruct (closing env); [apply at_most_raise|apply at_most_ret].
  - intros e.
    apply (at_most_seq 0 0 0 0); [apply at_most_log| |lia|lia].
    intros _. apply at_most_raise.
Qed.

Lemma at_most_run (eenv : engine_env) (senv : signaling_env) :
  at_most 1 1 (run json_loads eenv senv).
Proof.
  unfold run.
  apply (at_most_seq 0 0 1 1); [apply at_most_start| |lia|lia].
  intros _.
  apply (at_most_try 1 1 0 0); [apply at_most_connect_signaling| |lia|lia].
  intros e.
  apply (at_most_seq 0 0 0 0); [apply at_most_log| |lia|lia].
  intros _. apply at_most_stop.
Qed.

Lemma run_stops_on_loss (eenv : engine_env) (senv : signaling_env)
    (w : world) (e : exn) :
  result (start eenv w) = Returns tt ->
  result (connect_signaling json_loads senv (final (start eenv w)))
  = Raises e ->
  is_Exception e = true ->
  let o := run json_loads eenv senv w in
  result o = Returns tt /\
  pipeline (self (final o)) = None /\
  websocket (self (final o)) = None.
Proof.
  intros Hstart Hconn He. cbn zeta. unfold run.
  rewrite (bind_returns _ _ w tt Hstart). cbn [result final trace].
  unfold try_except. rewrite Hconn, He. cbn [result final trace].
  set (w' := final (connect_signaling json_loads senv (final (start eenv w)))).
  rewrite (bind_run _ _ w' w' tt
             [Log ERROR "Failed to connect to signaling: " (ExnArg e)]
             eq_refl).
  cbn [result final trace].
  destruct (stop_effects w') as (Hr & _ & _ & Hp & Hws & _).
  repeat split; assumption.
Qed.

End Connection.

(* ================================================================== *)
(** * The resolution argument *)

(** C9, as stated, fails: the resolution 0x0 is not a pair of positive
    integers, and [main] goes on to create the streamer with it. *)
Lemma starts_only_with_positive_size_fails : ~ starts_only_with_positive_size.
Proof.
  intros H.
  destruct (H 4300%nat zero_size_args
              (init "/dev/video0" 0 0 30 4000000 "ws://localhost:8765"
                 "stun://stun.l.google.com:19302") eq_refl) as [Hw _].
  vm_compute in Hw. discriminate Hw.
Qed.

Lemma parse_resolution_spec (max_str_digits : nat) (resolution : string)
    (width height : Z) :
  parse_resolution max_str_digits resolution = Some (width, height) <->
  exists p q,
    PyStr.split "x"%char resolution = [p; q] /\
    PyStr.int max_str_digits p = Some width /\
    PyStr.int max_str_digits q = Some height.
Proof.
  unfold parse_resolution. split.
  - destruct (PyStr.split "x"%char resolution) as [|p [|q [|r rest]]];
      cbn [List.map].
    + discriminate.
    + destruct (PyStr.int max_str_digits p); discriminate.
    + destruct (PyStr.int max_str_digits p) as [a|] eqn:Hp; [|discriminate].
      destruct (PyStr.int max_str_digits q) as [b|] eqn:Hq; [|discriminate].
      intros H. inversion H; subst. exists p, q. repeat split; assumption.
    + destruct (PyStr.int max_str_digits p) as [a|]; [|discriminate].
      destruct (PyStr.int max_str_digits q) as [b|]; discriminate.
  - intros (p & q & Hs & Hp & Hq). rewrite Hs. cbn [List.map].
    rewrite Hp, Hq. reflexivity.
Qed.

(** C9, as the code has it: [main] creates the streamer when the
    resolution splits at its [x] characters into two pieces that [int]
    both accepts, which holds for zero and for signed values as well;
    for every other resolution of ASCII characters it logs the invalid
    format and exits with status 1, whatever the environment; and when
    the run returns normally the status is 0. *)
Theorem resolution_checked_for_format_only :
  forall (max_str_digits : nat) (a : args),
    (forall width height : Z,
       (exists p q,
          PyStr.split "x"%char (arg_resolution a) = [p; q] /\
          PyStr.int max_str_digits p = Some width /\
          PyStr.int max_str_digits q = Some height) ->
       main_startup max_str_digits a =
       Created (init (arg_device a) width height (arg_fps a) (arg_bitrate a)
                  (arg_signaling_url a) (arg_stun_server a))) /\
    (PyStr.ascii_text (arg_resolution a) = true ->
     (forall width height : Z,
        ~ exists p q,
            PyStr.split "x"%char (arg_resolution a) = [p; q] /\
            PyStr.int max_str_digits p = Some width /\
            PyStr.int max_str_digits q = Some height) ->
     forall (json_loads : string -> json + loads_error) (eenv : engine_env)
            (senv : signaling_env),
       main max_str_digits json_loads a eenv senv =
       ([Log ERROR "Invalid resolution format: " (StrArg (arg_resolution a))],
        1%Z)) /\
    (forall (json_loads : string -> json + loads_error) (eenv : engine_env)
            (senv : signaling_env) (s : streamer),
       main_startup max_str_digits a = Created s ->
       result (run json_loads eenv senv (mkWorld s [])) = Returns tt ->
       snd (main max_str_digits json_loads a eenv senv) = 0%Z).
Proof.
  intros max_str_digits a. split; [|split].
  - intros width height H.
    apply parse_resolution_spec in H. unfold main_startup. rewrite H.
    reflexivity.
  - intros _ Hnone json_loads eenv senv. unfold main, main_startup.
    destruct (parse_resolution max_str_digits (arg_resolution a))
      as [[width height]|] eqn:Hparse; [|reflexivity].
    apply parse_resolution_spec in Hparse.
    exfalso. exact (Hnone width height Hparse).
  - intros json_loads eenv senv s Hs Hrun. unfold main. rewrite Hs.
    cbn [snd]. unfold run_guarded. rewrite Hrun. rewrite Hrun. reflexivity.
Qed.

Lemma resolution_checked_for_format_only_witness :
  main_startup 4300 zero_size_args =
  Created (init "/dev/video0" 0 0 30 4000000 "ws://localhost:8765"
             "stun://stun.l.google.com:19302") /\
  main 4300 sample_loads
    (mkArgs "/dev/video0" "1920" 30 4000000 "ws://localhost:8765"
       "stun://stun.l.google.com:19302" false)
    good_engine lossy_signaling =
  ([Log ERROR "Invalid resolution format: " (StrArg "1920")], 1%Z).
Proof.
  split.
  - destruct (resolution_checked_for_format_only 4300 zero_size_args)
      as (Hstart & _ & _).
    apply (Hstart 0%Z 0%Z). exists "0", "0". repeat split.
  - destruct (resolution_checked_for_format_only 4300
                (mkArgs "/dev/video0" "1920" 30 4000000 "ws://localhost:8765"
                   "stun://stun.l.google.com:19302" false))
      as (_ & Hexit & _).
    apply Hexit; [reflexivity|]. intros width height (p & q & Hsplit & _).
    vm_compute in Hsplit. discriminate Hsplit.
Defined.

(* ================================================================== *)
(** * The main loop attribute is never set *)

Lemma react_keeps_loop (ev : event) (w : world) :
  loop (self (final (react ev w))) = loop (self w).
Proof.
  destruct ev as [| th offer | th mline cand | ice | peer | msg | data | failure];
    cbn [react].
  - reflexivity.
  - destruct th, offer; reflexivity.
  - destruct th; reflexivity.
  - destruct ice; reflexivity.
  - reflexivity.
  - destruct msg as [err debug | warn | | src old new |].
    + destruct w as [s q]. destruct s as [d wd h f b u st p bin ws l id].
      destruct p, ws, l; reflexivity.
    + reflexivity.
    + destruct w as [s q]. destruct s as [d wd h f b u st p bin ws l id].
      destruct p, ws, l; reflexivity.
    + destruct (state_changed_run src old new w) as (t & Hrun & _).
      rewrite Hrun. reflexivity.
    + reflexivity.
  - destruct (handle_effects data w) as (_ & _ & [Hs | (d & _ & _ & Hs)]);
      rewrite Hs; reflexivity.
  - destruct w as [s q]. destruct s as [d wd h f b u st p bin ws l id].
    destruct q as [|t q]; [reflexivity|].
    destruct t as [message|]; [|reflexivity].
    destruct ws; [|reflexivity].
    destruct failure as [e|]; [|reflexivity].
    destruct e; reflexivity.
Qed.

Lemma react_all_keeps_loop (evs : list event) (w : world) :
  loop (self (final (react_all evs w))) = loop (self w).
Proof.
  revert w. induction evs as [|ev evs IH]; intros w; [reflexivity|].
  cbn [react_all]. unfold bind.
  destruct (result (react ev w)); cbn [result final trace].
  - rewrite IH. apply react_keeps_loop.
  - apply react_keeps_loop.
Qed.

(** C8, as the code has it: a call of [stop] made after an earlier call
    has returned raises nothing, leaves the streamer as it is and sets no
    pipeline to NULL and closes no websocket; it repeats [loop.quit()]
    when a main loop is set. Neither [run] nor any callback, message or
    task sets a main loop, so in a streamer created without one the
    second call performs no teardown action at all. *)
Theorem stop_again_after_return_is_noop :
  (forall w : world,
     let first := stop w in
     let second := stop (final first) in
     result first = Returns tt /\
     result second = Returns tt /\
     final second = final first /\
     filter is_teardown (trace second) =
     match loop (self w) with Some _ => [LoopQuit] | None => [] end) /\
  (forall (json_loads : string -> json + loads_error) (eenv : engine_env)
          (senv : signaling_env) (evs : list event) (w : world),
     loop (self w) = None ->
     let later := final (react_all evs (final (run json_loads eenv senv w))) in
     loop (self later) = None /\
     filter is_teardown (trace (stop (final (stop later)))) = []).
Proof.
  assert (Hagain : forall w : world,
            let first := stop w in
            let second := stop (final first) in
            result first = Returns tt /\
            result second = Returns tt /\
            final second = final first /\
            filter is_teardown (trace second) =
            match loop (self w) with Some _ => [LoopQuit] | None => [] end).
  { intros w. destruct w as [s q].
    destruct s as [d wd h f b u st p bin ws l id].
    destruct p, ws, l; lazy; repeat split. }
  split; [exact Hagain|].
  intros json_loads eenv senv evs w Hloop later.
  assert (Hlater : loop (self later) = None).
  { subst later. rewrite react_all_keeps_loop.
    destruct (at_most_run json_loads eenv senv w) as (_ & _ & Hl).
    rewrite Hl. exact Hloop. }
  split; [exact Hlater|].
  destruct (Hagain later) as (_ & _ & _ & Ht).
  rewrite Ht, Hlater. reflexivity.
Qed.

Lemma stop_again_after_return_is_noop_witness :
  loop (self fresh) = None /\
  filter is_teardown
    (trace (stop (final (stop (final (run sample_loads good_engine
                                         lossy_signaling fresh))))))
  = [].
Proof.
  destruct stop_again_after_return_is_noop as [_ Hrun].
  destruct (Hrun sample_loads good_engine lossy_signaling [] fresh eq_refl)
    as [_ Hnone].
  split; [reflexivity|exact Hnone].
Defined.

(* ================================================================== *)
(** * Invariants along a computation *)

Section Keeps.

Variable Inv : world -> Prop.
Variable P : effect -> Prop.

Lemma keeps_bind {A B : Type} (c : Py A) (k : A -> Py B) :
  keeps Inv P c -> (forall x, keeps Inv P (k x)) -> keeps Inv P (bind c k).
Proof.
  intros Hc Hk w Hw. unfold bind. destruct (Hc w Hw) as [Hf Ht].
  destruct (result (c w)) as [x|e]; cbn [result final trace].
  - destruct (Hk x _ Hf) as [Hf' Ht'].
    split; [exact Hf'|]. apply Forall_app. split; assumption.
  - split; assumption.
Qed.

Lemma keeps_try {A : Type} (c : Py A) (catches : exn -> bool)
    (handler : exn -> Py A) :
  keeps Inv P c -> (forall e, keeps Inv P (handler e)) ->
  keeps Inv P (try_except c catches handler).
Proof.
  intros Hc Hh w Hw. unfold try_except. destruct (Hc w Hw) as [Hf Ht].
  destruct (result (c w)) as [x|e]; [split; assumption|].
  destruct (catches e); cbn [result final trace]; [|split; assumption].
  destruct (Hh e _ Hf) as [Hf' Ht'].
  split; [exact Hf'|]. apply Forall_app. split; assumption.
Qed.

Lemma keeps_ret {A : Type} (x : A) : keeps Inv P (ret x).
Proof. intros w Hw. split; [exact Hw|constructor]. Qed.

Lemma keeps_raise {A : Type} (e : exn) : keeps Inv P (@raise A e).
Proof. intros w Hw. split; [exact Hw|constructor]. Qed.

Lemma keeps_get_event_loop (th : thread) : keeps Inv P (get_event_loop th).
Proof. destruct th; [apply keeps_ret|apply keeps_raise]. Qed.

Lemma keeps_tell (e : effect) : P e -> keeps Inv P (tell e).
Proof. intros He w Hw. split; [exact Hw|]. repeat constructor. exact He. Qed.

Lemma keeps_log (lv : level) (text : string) (arg : log_arg) :
  P (Log lv text arg) -> keeps Inv P (log lv text arg).
Proof. apply keeps_tell. Qed.

(** What follows [get_self] may rely on the object read. *)
Lemma keeps_self {A : Type} (k : streamer -> Py A) :
  (forall w, Inv w -> Inv (final (k (self w) w)) /\
                    Forall P (trace (k (self w) w))) ->
  keeps Inv P (bind get_self k).
Proof. intros H w Hw. exact (H w Hw). Qed.

Lemma keeps_create_task (t : task) :
  P (CreateTask t) ->
  (forall w, Inv w -> Inv (mkWorld (self w) (ready w ++ [t]))) ->
  keeps Inv P (create_task t).
Proof.
  intros Ht H w Hw. split; [exact (H w Hw)|]. repeat constructor. exact Ht.
Qed.

End Keeps.

Lemma keeps_react_all (Inv : world -> Prop) (P : effect -> Prop)
    (evs : list event) :
  (forall ev, In ev evs -> keeps Inv P (react ev)) ->
  keeps Inv P (react_all evs).
Proof.
  induction evs as [|ev evs IH]; intros H; cbn [react_all].
  - apply keeps_ret.
  - apply keeps_bind.
    + apply H. left. reflexivity.
    + intros _. apply IH. intros ev' Hin. apply H. right. exact Hin.
Qed.

(** A handled message, whatever it is, keeps every property of the world
    that does not depend on the session id. *)
Lemma keeps_handle (Inv : world -> Prop) (P : effect -> Prop) (data : json) :
  (forall e, local_effect e -> P e) ->
  (forall w id, Inv w -> Inv (mkWorld (with_session_id id (self w)) (ready w))) ->
  keeps Inv P (_handle_signaling_message data).
Proof.
  intros HP HI w Hw. destruct (handle_effects data w) as (Hr & Ht & Hs).
  split.
  - destruct (final (_handle_signaling_message data w)) as [s' q'].
    cbn [self ready] in Hr, Hs. subst q'.
    destruct Hs as [Hs | (d & _ & _ & Hs)]; subst s'.
    + destruct w; exact Hw.
    + apply HI. exact Hw.
  - eapply Forall_impl; [exact HP|exact Ht].
Qed.

Lemma keeps_stop (Inv : world -> Prop) (P : effect -> Prop) :
  (forall lv text arg, P (Log lv text arg)) ->
  P (SetState NULL) -> P (CreateTask CloseTask) -> P LoopQuit ->
  (forall w, Inv w ->
     Inv (mkWorld (with_websocket None (with_pipeline None (self w)))
          (ready w ++ match websocket (self w) with
                      | Some _ => [CloseTask] | None => [] end))) ->
  keeps Inv P stop.
Proof.
  intros Hlog Hnull Hclose Hquit HI w Hw. specialize (HI w Hw).
  destruct w as [s q]. destruct s as [d wd h f b u st p bin ws l id].
  cbn [self ready websocket with_websocket with_pipeline device width height
       fps bitrate signaling_url stun_server pipeline webrtcbin loop
       session_id] in HI.
  destruct p, ws, l; lazy -[app]; rewrite ?app_nil_r in HI;
    (split; [exact HI|]); repeat constructor; auto.
Qed.

(* ================================================================== *)
(** * What [start] does *)

(** X1: [start] returns exactly when a pipeline could be launched, the
    hardware description first and the software one only after the
    first failed, the element [sendrecv] was found in it and the change
    to PLAYING did not fail; it leaves the launched pipeline set even
    when it raises afterwards, hands the STUN server to the engine only
    when one is configured, sets PLAYING only once [sendrecv] was found
    and tears nothing down. *)
Theorem start_outcome :
  forall (env : engine_env) (w : world),
    let o := start env w in
    (result o = Returns tt <->
     launched env <> None /\ sendrecv env <> None /\ play_ok env = true) /\
    pipeline (self (final o)) =
      match launched env with
      | Some p => Some p
      | None => pipeline (self w)
      end /\
    filter is_parse_launch (trace o) =
      match launch env with
      | Some _ => [ParseLaunch false]
      | None => [ParseLaunch false; ParseLaunch true]
      end /\
    filter is_set_property (trace o) =
      match launched env, sendrecv env with
      | Some _, Some _ =>
          if String.eqb (stun_server (self w)) EmptyString then []
          else [SetProperty "stun-server" (stun_server (self w))]
      | _, _ => []
      end /\
    count is_play (trace o) =
      match launched env, sendrecv env with
      | Some _, Some _ => 1%nat
      | _, _ => 0%nat
      end /\
    filter is_teardown (trace o) = [].
Proof.
  intros env w. destruct env as [l fl sr ok]. destruct w as [s q].
  destruct s as [d wd h f b u st p bin ws lp id].
  destruct st as [|c st]; destruct l, fl, sr, ok; lazy;
    repeat split; try congruence; try (intros (H1 & H2 & H3); congruence);
    try discriminate.
Qed.

(* ================================================================== *)
(** * Nothing is sent before the signaling connection exists *)

Lemma local_not_sent (e : effect) : local_effect e -> not_sent e.
Proof. destruct e; simpl; intros H; try reflexivity; contradiction. Qed.

Lemma keeps_no_websocket_react (ev : event) :
  keeps no_websocket not_sent (react ev).
Proof.
  destruct ev as [| th offer | th mline cand | ice | peer | msg | data | failure];
    cbn [react].
  - apply keeps_bind; [apply keeps_log; reflexivity|].
    intros _. apply keeps_tell. reflexivity.
  - destruct offer as [sdp|]; [|apply keeps_log; reflexivity].
    unfold _on_offer_created.
    apply keeps_bind; [apply keeps_tell; reflexivity|]. intros _.
    apply keeps_bind; [apply keeps_log; reflexivity|]. intros _.
    apply keeps_bind; [apply keeps_get_event_loop|]. intros _.
    apply keeps_self. intros w Hw. apply keeps_create_task;
      [reflexivity| |exact Hw]. intros w' Hw'. exact Hw'.
  - unfold _on_ice_candidate.
    apply keeps_bind; [apply keeps_log; reflexivity|]. intros _.
    apply keeps_bind; [apply keeps_get_event_loop|]. intros _.
    apply keeps_self. intros w Hw. apply keeps_create_task;
      [reflexivity| |exact Hw]. intros w' Hw'. exact Hw'.
  - unfold _on_ice_connection_state.
    apply keeps_bind; [apply keeps_log; reflexivity|]. intros _.
    destruct ice; first [apply keeps_ret | apply keeps_log; reflexivity].
  - apply keeps_log. reflexivity.
  - assert (Hstop : keeps no_websocket not_sent stop).
    { apply keeps_stop; reflexivity. }
    destruct msg as [err debug | warn | | src old new |].
    + cbn [_on_bus_message].
      apply keeps_bind; [apply keeps_log; reflexivity|]. intros _.
      apply keeps_bind; [apply keeps_log; reflexivity|]. intros _.
      exact Hstop.
    + apply keeps_log. reflexivity.
    + cbn [_on_bus_message].
      apply keeps_bind; [apply keeps_log; reflexivity|]. intros _.
      exact Hstop.
    + intros w Hw. destruct (state_changed_run src old new w) as (t & Hrun & Ht).
      rewrite Hrun. cbn [final trace]. split; [exact Hw|].
      eapply Forall_impl; [exact local_not_sent|exact Ht].
    + apply keeps_ret.
  - apply keeps_handle; [exact local_not_sent|].
    intros w id Hw. exact Hw.
  - intros w Hw. unfold run_task, bind, pop_task.
    destruct w as [s q]. unfold no_websocket in Hw. cbn [self] in Hw.
    destruct q as [|t q]; cbn [ready result final trace self ret].
    + split; [exact Hw|constructor].
    + destruct t as [message|]; cbn [app].
      * unfold _send_signaling_message, bind, get_self.
        cbn [result final trace self]. rewrite Hw.
        cbn [ret result final trace self app]. split; [exact Hw|constructor].
      * cbn [tell result final trace self]. split; [exact Hw|].
        repeat constructor.
Qed.

(** X2: while no websocket is set nothing is sent, whatever the callbacks,
    messages and tasks, and none of them sets one: what the engine
    produces before the signaling connection exists is dropped. *)
Theorem nothing_sent_without_websocket :
  forall (evs : list event) (w : world),
    websocket (self w) = None ->
    let o := react_all evs w in
    websocket (self (final o)) = None /\
    filter is_send (trace o) = [].
Proof.
  intros evs w Hw o.
  destruct (keeps_react_all no_websocket not_sent evs
              (fun ev _ => keeps_no_websocket_react ev) w Hw) as [Hf Ht].
  split; [exact Hf|].
  fold o in Ht. induction Ht as [|e t He _ IH]; [reflexivity|].
  cbn [filter]. unfold not_sent in He. rewrite He. exact IH.
Qed.

Lemma nothing_sent_without_websocket_witness :
  websocket (self started) = None /\
  filter is_send
    (trace (react_all [NegotiationNeeded;
                       OfferCreated LoopThread (Some "v=0");
                       RunTask None; IceCandidate LoopThread 0 "candidate:1";
                       RunTask None] started)) = [].
Proof.
  split; [reflexivity|].
  apply (nothing_sent_without_websocket
           [NegotiationNeeded; OfferCreated LoopThread (Some "v=0");
            RunTask None; IceCandidate LoopThread 0 "candidate:1";
            RunTask None]
           started).
  reflexivity.
Defined.

(* ================================================================== *)
(** * The receive loop only listens *)

Lemma local_no_teardown (e : effect) : local_effect e -> no_teardown e.
Proof. destruct e; simpl; intros H; try reflexivity; contradiction. Qed.

Lemma keeps_send_signaling_message (Inv : world -> Prop) (P : effect -> Prop)
    (message : json) (failure : option exn) :
  P (Send message) ->
  (forall lv text arg, P (Log lv text arg)) ->
  keeps Inv P (_send_signaling_message message failure).
Proof.
  intros Hsend Hlog. unfold _send_signaling_message.
  apply keeps_self. intros w Hw.
  destruct (websocket (self w)); [|apply keeps_ret; exact Hw].
  apply keeps_try; [| |exact Hw].
  - unfold websocket_send. destruct failure;
      [apply keeps_raise|apply keeps_tell; exact Hsend].
  - intros e. apply keeps_log. apply Hlog.
Qed.

Section KeepsReceive.

Variable json_loads : string -> json + loads_error.
Variable Inv : world -> Prop.
Variable P : effect -> Prop.
Hypothesis local_P : forall e, local_effect e -> P e.
Hypothesis I_session_id :
  forall w id, Inv w -> Inv (mkWorld (with_session_id id (self w)) (ready w)).

Lemma keeps_receive_one (frame : string) :
  keeps Inv P (receive_one json_loads frame).
Proof.
  unfold receive_one. apply keeps_try.
  - apply keeps_bind.
    + unfold loads. destruct (json_loads frame);
        [apply keeps_ret|apply keeps_raise].
    + intros data. apply keeps_handle; assumption.
  - intros _. apply keeps_log. apply local_P. constructor.
Qed.

Lemma keeps_receive_loop (frames : list string) :
  keeps Inv P (receive_loop json_loads frames).
Proof.
  induction frames as [|frame rest IH]; cbn [receive_loop].
  - apply keeps_ret.
  - apply keeps_bind; [apply keeps_receive_one|]. intros _. exact IH.
Qed.

End KeepsReceive.

(** X3: whatever frames arrive and whatever they decode to, the receive
    loop answers nothing: it sends nothing, connects nowhere, schedules
    no task and tears nothing down, and of the streamer it changes the
    session id at most. *)
Theorem receive_loop_never_replies :
  forall (json_loads : string -> json + loads_error) (frames : list string)
         (w : world),
    let o := receive_loop json_loads frames w in
    Forall local_effect (trace o) /\
    ready (final o) = ready w /\
    same_but_session_id (self (final o)) (self w).
Proof.
  intros json_loads frames w o.
  assert (H : keeps (fun w' => ready w' = ready w /\
                               same_but_session_id (self w') (self w))
                local_effect (receive_loop json_loads frames)).
  { apply keeps_receive_loop; [intros e He; exact He|].
    intros w' id [Hr Hs]. split; [exact Hr|].
    unfold same_but_session_id in *. cbn [self].
    destruct (self w') as [d wd h f b u st p bin ws l sid].
    destruct (self w) as [d0 wd0 h0 f0 b0 u0 st0 p0 bin0 ws0 l0 sid0].
    cbn in Hs |- *. inversion Hs; subst. reflexivity. }
  destruct (H w) as [[Hr Hs] Ht].
  - split; [reflexivity|]. unfold same_but_session_id.
    destruct (self w); reflexivity.
  - split; [exact Ht|]. split; assumption.
Qed.

(* ================================================================== *)
(** * A clean close of the connection *)

Section Open.

Variable json_loads : string -> json + loads_error.

(** Once the websocket is open, [connect_signaling] leaves it and the
    pipeline set, however it ends, and tears nothing down. *)
Lemma connect_signaling_open (senv : signaling_env) (ws : handle)
    (w : world) :
  connect_result senv = inl ws ->
  let o := connect_signaling json_loads senv w in
  websocket (self (final o)) = Some ws /\
  pipeline (self (final o)) = pipeline (self w) /\
  Forall no_teardown (trace o).
Proof.
  intros Hconn. cbn zeta. unfold connect_signaling.
  rewrite (bind_run _ _ w w (self w) [] eq_refl).
  cbn [result final trace app].
  rewrite (bind_run _ _ w w tt
             [Log INFO "Connecting to signaling server: "
                (StrArg (signaling_url (self w)))] eq_refl).
  cbn [result final trace].
  rewrite Hconn.
  set (w1 := mkWorld (with_websocket (Some ws) (self w)) (ready w)).
  set (I1 := fun w' : world =>
               websocket (self w') = Some ws /\
               pipeline (self w') = pipeline (self w)).
  assert (Hw1 : I1 w1).
  { split; reflexivity. }
  match goal with
  | |- context [try_except (bind _ ?k) _ ?h] =>
      set (rest := k); set (handler := h)
  end.
  assert (Hrest : keeps I1 no_teardown (rest tt)).
  { subst rest. cbv beta.
    apply keeps_bind; [apply keeps_log; reflexivity|]. intros _.
    apply keeps_bind.
    { apply keeps_send_signaling_message; reflexivity. }
    intros _. apply keeps_bind.
    { apply keeps_receive_loop; [exact local_no_teardown|].
      intros w' id Hw'. exact Hw'. }
    intros _. destruct (closing senv); [apply keeps_raise|apply keeps_ret]. }
  assert (Hhandler : forall e, keeps I1 no_teardown (handler e)).
  { intros e. subst handler. cbv beta.
    apply keeps_bind; [apply keeps_log; reflexivity|]. intros _.
    apply keeps_raise. }
  unfold try_except.
  rewrite (bind_run _ _ w w1 tt [Connect (signaling_url (self w))] eq_refl).
  cbn [result final trace].
  destruct (Hrest w1 Hw1) as [[Hws Hp] Ht].
  destruct (result (rest tt w1)) as [[]|e]; cbn [result final trace].
  - split; [exact Hws|]. split; [exact Hp|].
    constructor; [reflexivity|]. constructor; [reflexivity|exact Ht].
  - destruct (is_Exception e); cbn [result final trace].
    + destruct (Hhandler e (final (rest tt w1)) (conj Hws Hp))
        as [[Hws' Hp'] Ht'].
      split; [exact Hws'|]. split; [exact Hp'|].
      constructor; [reflexivity|]. cbn [app].
      constructor; [reflexivity|]. apply Forall_app. split; assumption.
    + split; [exact Hws|]. split; [exact Hp|].
      constructor; [reflexivity|]. constructor; [reflexivity|exact Ht].
Qed.

End Open.

Lemma start_cases (env : engine_env) (w : world) :
  let o := start env w in
  (result o = Returns tt <->
   launched env <> None /\ sendrecv env <> None /\ play_ok env = true) /\
  (forall e, result o = Raises e -> is_Exception e = true) /\
  pipeline (self (final o)) =
    match launched env with Some p => Some p | None => pipeline (self w) end /\
  websocket (self (final o)) = websocket (self w) /\
  ready (final o) = ready w /\
  Forall no_teardown (trace o) /\
  filter is_send (trace o) = [].
Proof.
  destruct env as [l fl sr ok]. destruct w as [s q].
  destruct s as [d wd h f b u st p bin ws lp id].
  destruct st as [|c st]; destruct l, fl, sr, ok; lazy;
    repeat split; try congruence; try (intros (H1 & H2 & H3); congruence);
    try discriminate; try (intros e H; inversion H; reflexivity);
    repeat constructor.
Qed.

Lemma filter_no_teardown (t : list effect) :
  Forall no_teardown t -> filter is_teardown t = [].
Proof.
  intros H. induction H as [|e t He _ IH]; [reflexivity|].
  cbn [filter]. unfold no_teardown in He. rewrite He. exact IH.
Qed.

(** X4: when the server closes the connection cleanly, [run] returns
    without stopping anything: no pipeline is set to NULL, no close of the
    websocket is scheduled, and the pipeline and the websocket stay
    set. *)
Theorem clean_close_leaves_streamer_running :
  forall (json_loads : string -> json + loads_error) (eenv : engine_env)
         (senv : signaling_env) (ws : handle) (w : world),
    result (start eenv w) = Returns tt ->
    connect_result senv = inl ws ->
    result (connect_signaling json_loads senv (final (start eenv w)))
    = Returns tt ->
    let o := run json_loads eenv senv w in
    result o = Returns tt /\
    filter is_teardown (trace o) = [] /\
    pipeline (self (final o)) = launched eenv /\
    pipeline (self (final o)) <> None /\
    websocket (self (final o)) = Some ws.
Proof.
  intros json_loads eenv senv ws w Hstart Hconn Hret. cbn zeta.
  destruct (start_cases eenv w) as (Hiff & _ & Hp & _ & _ & Ht & _).
  apply Hiff in Hstart as Hok. destruct Hok as (Hl & _ & _).
  destruct (connect_signaling_open json_loads senv ws
              (final (start eenv w)) Hconn) as (Hws' & Hp' & Ht').
  unfold run. rewrite (bind_returns _ _ w tt Hstart).
  cbn [result final trace]. unfold try_except. rewrite Hret.
  split; [exact Hret|]. split.
  { apply filter_no_teardown. apply Forall_app. split; assumption. }
  rewrite Hp', Hp. destruct (launched eenv) as [p|]; [|congruence].
  split; [reflexivity|]. split; [discriminate|exact Hws'].
Qed.

Lemma clean_close_leaves_streamer_running_witness :
  let o := run sample_loads good_engine
             (mkSignalingEnv (inl 3%nat) None ["bogus-frame"] None) fresh in
  result o = Returns tt /\
  filter is_teardown (trace o) = [] /\
  pipeline (self (final o)) = launched good_engine /\
  pipeline (self (final o)) <> None /\
  websocket (self (final o)) = Some 3%nat.
Proof.
  apply (clean_close_leaves_streamer_running sample_loads good_engine
           (mkSignalingEnv (inl 3%nat) None ["bogus-frame"] None) 3%nat fresh);
    vm_compute; reflexivity.
Defined.

(* ================================================================== *)
(** * The exit status of [main] *)

Section RaisesOnly.

Variable Q : exn -> Prop.

Lemma raises_only_bind {A B : Type} (c : Py A) (k : A -> Py B) :
  raises_only Q c -> (forall x, raises_only Q (k x)) ->
  raises_only Q (bind c k).
Proof.
  intros Hc Hk w e. unfold bind.
  destruct (result (c w)) as [x|e'] eqn:Hr; cbn [result].
  - apply Hk.
  - intros H. inversion H; subst. exact (Hc w e Hr).
Qed.

Lemma raises_only_try {A : Type} (c : Py A) (catches : exn -> bool)
    (handler : exn -> Py A) :
  raises_only Q c ->
  (forall e, catches e = true -> raises_only Q (handler e)) ->
  raises_only Q (try_except c catches handler).
Proof.
  intros Hc Hh w e. unfold try_except.
  destruct (result (c w)) as [x|e'] eqn:Hr.
  - rewrite Hr. discriminate.
  - destruct (catches e') eqn:Hcatch; cbn [result].
    + apply Hh. exact Hcatch.
    + rewrite Hr. intros H. inversion H; subst. exact (Hc w e Hr).
Qed.

Lemma raises_only_ret {A : Type} (x : A) : raises_only Q (ret x).
Proof. intros w e H. discriminate H. Qed.

Lemma raises_only_raise {A : Type} (e : exn) : Q e -> raises_only Q (@raise A e).
Proof. intros He w e' H. inversion H; subst. exact He. Qed.

Lemma raises_only_tell (e : effect) : raises_only Q (tell e).
Proof. intros w e' H. discriminate H. Qed.

Lemma raises_only_get_self : raises_only Q get_self.
Proof. intros w e' H. discriminate H. Qed.

Lemma raises_only_modify (f : streamer -> streamer) :
  raises_only Q (modify_self f).
Proof. intros w e' H. discriminate H. Qed.

End RaisesOnly.

(** Handling a message raises for a message that is no object, for an
    answer whose sdp is no text or text with a lone surrogate, and when
    no webrtcbin is set; never anything else. *)
Lemma handle_raises (data : json) :
  raises_only (fun e => e = AttributeError \/ e = TypeError \/
                        e = UnicodeEncodeError)
    (_handle_signaling_message data).
Proof.
  destruct data as [| b | n | s | xs | d | cps];
    try (apply raises_only_raise; left; reflexivity).
  unfold _handle_signaling_message.
  assert (Hemit : forall eff,
            raises_only (fun e => e = AttributeError \/ e = TypeError \/
                                  e = UnicodeEncodeError)
              (webrtcbin_emit eff)).
  { intros eff. unfold webrtcbin_emit.
    apply raises_only_bind; [apply raises_only_get_self|]. intros s.
    destruct (webrtcbin s);
      [apply raises_only_tell|apply raises_only_raise; left; reflexivity]. }
  destruct (is_str (get d "type") "answer").
  { unfold handle_answer.
    destruct (truthy (get d "sdp")); [|apply raises_only_ret].
    apply raises_only_bind; [apply raises_only_tell|]. intros _.
    destruct (get d "sdp");
      try (apply raises_only_raise; right; left; reflexivity);
      try (apply raises_only_raise; right; right; reflexivity).
    apply Hemit. }
  destruct (is_str (get d "type") "ice-candidate").
  { unfold handle_ice_candidate.
    destruct (truthy (get d "candidate")); [|apply raises_only_ret].
    apply raises_only_bind; [apply raises_only_tell|]. intros _.
    apply Hemit. }
  destruct (is_str (get d "type") "session-created").
  { unfold handle_session_created.
    apply raises_only_bind; [apply raises_only_modify|]. intros _.
    apply raises_only_bind; [apply raises_only_get_self|]. intros s.
    apply raises_only_tell. }
  destruct (is_str (get d "type") "error");
    [apply raises_only_tell|apply raises_only_ret].
Qed.

Section Ordinary.

Variable json_loads : string -> json + loads_error.

Lemma receive_loop_raises (frames : list string) :
  raises_only ordinary (receive_loop json_loads frames).
Proof.
  induction frames as [|frame rest IH]; cbn [receive_loop].
  - apply raises_only_ret.
  - apply raises_only_bind; [|intros _; exact IH].
    unfold receive_one. apply raises_only_try.
    + apply raises_only_bind.
      * unfold loads. destruct (json_loads frame) as [data|err];
          [apply raises_only_ret|].
        apply raises_only_raise. destruct err; reflexivity.
      * intros data w e H.
        destruct (handle_raises data w e H) as [->|[->| ->]]; reflexivity.
    + intros e _. apply raises_only_tell.
Qed.

Lemma connect_signaling_raises (env : signaling_env) :
  ordinary_failures env ->
  raises_only ordinary (connect_signaling json_loads env).
Proof.
  intros (Hconn & Hreg & Hclose). unfold connect_signaling.
  apply raises_only_bind; [apply raises_only_get_self|]. intros s.
  apply raises_only_bind; [apply raises_only_tell|]. intros _.
  apply raises_only_try.
  - apply raises_only_bind.
    { unfold websockets_connect.
      apply raises_only_bind; [apply raises_only_tell|]. intros _.
      destruct (connect_result env) as [ws|e];
        [apply raises_only_modify|].
      apply raises_only_raise. apply Hconn. reflexivity. }
    intros _. apply raises_only_bind; [apply raises_only_tell|]. intros _.
    apply raises_only_bind.
    { unfold _send_signaling_message.
      apply raises_only_bind; [apply raises_only_get_self|]. intros s'.
      destruct (websocket s'); [|apply raises_only_ret].
      apply raises_only_try.
      - unfold websocket_send. destruct (register_failure env) as [e|];
          [|apply raises_only_tell].
        apply raises_only_raise. apply Hreg. reflexivity.
      - intros e _. apply raises_only_tell. }
    intros _. apply raises_only_bind; [apply receive_loop_raises|].
    intros _. destruct (closing env) as [e|]; [|apply raises_only_ret].
    apply raises_only_raise. apply Hclose. reflexivity.
  - intros e He. apply raises_only_bind; [apply raises_only_tell|].
    intros _. apply raises_only_raise. exact He.
Qed.

(** Once started, [run] returns whenever the network fails in ordinary
    ways only. *)
Lemma run_returns (eenv : engine_env) (senv : signaling_env) (w : world) :
  ordinary_failures senv ->
  result (start eenv w) = Returns tt ->
  result (run json_loads eenv senv w) = Returns tt.
Proof.
  intros Hord Hstart. unfold run. rewrite (bind_returns _ _ w tt Hstart).
  cbn [result]. unfold try_except.
  destruct (result (connect_signaling json_loads senv (final (start eenv w))))
    as [[]|e] eqn:Hr.
  - exact Hr.
  - rewrite (connect_signaling_raises senv Hord _ e Hr). cbn [result].
    set (w' := final (connect_signaling json_loads senv (final (start eenv w)))).
    rewrite (bind_run _ _ w' w' tt
               [Log ERROR "Failed to connect to signaling: " (ExnArg e)]
               eq_refl).
    cbn [result]. destruct (stop_effects w') as (Hstop & _). exact Hstop.
Qed.

End Ordinary.

(** What [main] does with an [Exception] that escapes [run]. *)
Lemma run_guarded_exception (json_loads : string -> json + loads_error)
    (eenv : engine_env) (senv : signaling_env) (w : world) (e : exn) :
  result (run json_loads eenv senv w) = Raises e ->
  is_Exception e = true ->
  let o := run json_loads eenv senv w in
  let o' := run_guarded json_loads eenv senv w in
  result o' = Raises (SystemExit 1) /\
  final o' = final (stop (final o)) /\
  trace o' = trace o ++ Log ERROR "Streamer error: " (ExnArg e)
                        :: trace (stop (final o)).
Proof.
  intros Hrun He. cbn zeta. unfold run_guarded.
  revert Hrun. generalize (run json_loads eenv senv w). intros o Hrun.
  destruct o as [r f t]. cbn [result final trace] in *. subst r.
  assert (Hk : is_KeyboardInterrupt e = false).
  { destruct e; try reflexivity. discriminate He. }
  rewrite Hk, He. cbn [result final trace].
  destruct (stop_effects f) as (Hstop & _).
  unfold bind at 1. unfold log, tell. cbn [result final trace].
  unfold bind, raise. cbn [result final trace app].
  rewrite !Hstop. cbn [result final trace app].
  rewrite app_nil_r. repeat split.
Qed.

(** X5: the exit status tells whether the pipeline started, not whether
    signaling worked: with a well-formed resolution and a network that
    fails in ordinary ways only, [main] ends with status 0 when [start]
    returns and with status 1 when [start] raises. *)
Theorem exit_status_reports_start_only :
  forall (max_str_digits : nat) (json_loads : string -> json + loads_error)
         (a : args) (eenv : engine_env) (senv : signaling_env) (s : streamer),
    main_startup max_str_digits a = Created s ->
    ordinary_failures senv ->
    snd (main max_str_digits json_loads a eenv senv) =
    match result (start eenv (mkWorld s [])) with
    | Returns _ => 0%Z
    | Raises _ => 1%Z
    end.
Proof.
  intros max_str_digits json_loads a eenv senv s Hs Hord.
  unfold main. rewrite Hs. cbn [snd].
  destruct (result (start eenv (mkWorld s []))) as [[]|e] eqn:Hstart.
  - unfold run_guarded.
    rewrite (run_returns json_loads eenv senv _ Hord Hstart).
    rewrite (run_returns json_loads eenv senv _ Hord Hstart). reflexivity.
  - assert (Hrun : result (run json_loads eenv senv (mkWorld s [])) = Raises e).
    { unfold run. rewrite (bind_raises _ _ _ e Hstart). reflexivity. }
    destruct (start_cases eenv (mkWorld s [])) as (_ & Hexc & _).
    destruct (run_guarded_exception json_loads eenv senv (mkWorld s []) e
                Hrun (Hexc e Hstart)) as (Hres & _).
    rewrite Hres. reflexivity.
Qed.

Lemma exit_status_reports_start_only_witness :
  snd (main 4300 sample_loads
         (mkArgs "/dev/video0" "1920x1080" 30 4000000 "ws://localhost:8765"
            "stun://stun.l.google.com:19302" false)
         good_engine lossy_signaling) = 0%Z.
Proof.
  apply (exit_status_reports_start_only 4300 sample_loads
           (mkArgs "/dev/video0" "1920x1080" 30 4000000 "ws://localhost:8765"
              "stun://stun.l.google.com:19302" false)
           good_engine lossy_signaling
           (init "/dev/video0" 1920 1080 30 4000000 "ws://localhost:8765"
              "stun://stun.l.google.com:19302")).
  - vm_compute. reflexivity.
  - split; [|split]; intros e H; vm_compute in H; inversion H; reflexivity.
Defined.

Lemma stop_releases (w : world) :
  filter is_teardown (trace (stop w)) =
  (match pipeline (self w) with Some _ => [SetState NULL] | None => [] end ++
   match websocket (self w) with
   | Some _ => [CreateTask CloseTask] | None => [] end ++
   match loop (self w) with Some _ => [LoopQuit] | None => [] end) /\
  ready (final (stop w)) =
  ready w ++ match websocket (self w) with
             | Some _ => [CloseTask] | None => [] end /\
  self (final (stop w)) = with_websocket None (with_pipeline None (self w)).
Proof.
  destruct w as [s q]. destruct s as [d wd h f b u st p bin ws l id].
  destruct p, ws, l; lazy -[app]; rewrite ?app_nil_r; repeat split.
Qed.

(** X6: when [start] raises, [run] ends there, before any contact with
    the signaling server; [main] logs the error, stops the streamer,
    which sets to NULL the pipeline that was launched, if one was, and
    exits with status 1. *)
Theorem start_failure_skips_signaling :
  forall (max_str_digits : nat) (json_loads : string -> json + loads_error)
         (a : args) (eenv : engine_env) (senv : signaling_env)
         (s : streamer) (e : exn),
    main_startup max_str_digits a = Created s ->
    result (start eenv (mkWorld s [])) = Raises e ->
    let o := start eenv (mkWorld s []) in
    let m := main max_str_digits json_loads a eenv senv in
    fst m = trace o ++ Log ERROR "Streamer error: " (ExnArg e)
                    :: trace (stop (final o)) /\
    snd m = 1%Z /\
    count is_connect (fst m) = 0%nat /\
    filter is_teardown (fst m) =
    match launched eenv with Some _ => [SetState NULL] | None => [] end.
Proof.
  intros max_str_digits json_loads a eenv senv s e Hs Hstart. cbn zeta.
  assert (Hinit : pipeline s = None /\ websocket s = None /\ loop s = None).
  { unfold main_startup in Hs.
    destruct (parse_resolution max_str_digits (arg_resolution a))
      as [[wd h]|]; [|discriminate Hs].
    inversion Hs; subst. repeat split. }
  destruct Hinit as (Hp0 & Hws0 & Hl0).
  assert (Hrun : run json_loads eenv senv (mkWorld s []) =
                 mkOutcome (Raises e) (final (start eenv (mkWorld s [])))
                   (trace (start eenv (mkWorld s [])))).
  { unfold run. apply bind_raises. exact Hstart. }
  destruct (start_cases eenv (mkWorld s []))
    as (_ & Hexc & Hp & Hws & _ & Ht & _).
  destruct (start_effects eenv (mkWorld s [])) as (Hc & _ & _ & Hl).
  cbn zeta in Hc, Hl. cbn [self] in Hp, Hws, Hl.
  assert (Hres : result (run json_loads eenv senv (mkWorld s [])) = Raises e).
  { rewrite Hrun. reflexivity. }
  destruct (run_guarded_exception json_loads eenv senv (mkWorld s []) e
              Hres (Hexc e Hstart)) as (Hr & _ & Htr).
  cbn zeta in Hr, Htr. rewrite Hrun in Htr. cbn [final trace] in Htr.
  unfold main. rewrite Hs. cbn [fst snd]. rewrite Hr, Htr.
  split; [reflexivity|]. split; [reflexivity|].
  destruct (stop_effects (final (start eenv (mkWorld s []))))
    as (_ & Hcs & _).
  destruct (stop_releases (final (start eenv (mkWorld s [])))) as (Hrel & _).
  split.
  - rewrite count_app. rewrite Hc.
    change (Log ERROR "Streamer error: " (ExnArg e)
              :: trace (stop (final (start eenv (mkWorld s [])))))
      with ([Log ERROR "Streamer error: " (ExnArg e)] ++
            trace (stop (final (start eenv (mkWorld s []))))).
    rewrite count_app, Hcs. reflexivity.
  - rewrite filter_app. rewrite (filter_no_teardown _ Ht).
    cbn [app filter is_teardown]. rewrite Hrel, Hp, Hws, Hl, Hp0, Hws0, Hl0.
    destruct (launched eenv); reflexivity.
Qed.

Lemma start_failure_skips_signaling_witness :
  let m := main 4300 sample_loads
             (mkArgs "/dev/video0" "1920x1080" 30 4000000
                "ws://localhost:8765" "stun://stun.l.google.com:19302" false)
             (mkEngineEnv (Some 1%nat) None (Some 2%nat) false)
             lossy_signaling in
  snd m = 1%Z /\ count is_connect (fst m) = 0%nat /\
  filter is_teardown (fst m) = [SetState NULL].
Proof.
  destruct (start_failure_skips_signaling 4300 sample_loads
              (mkArgs "/dev/video0" "1920x1080" 30 4000000
                 "ws://localhost:8765" "stun://stun.l.google.com:19302" false)
              (mkEngineEnv (Some 1%nat) None (Some 2%nat) false)
              lossy_signaling
              (init "/dev/video0" 1920 1080 30 4000000 "ws://localhost:8765"
                 "stun://stun.l.google.com:19302")
              (RuntimeError "Failed to start pipeline"))
    as (_ & Hstatus & Hconn & Hdown).
  - vm_compute. reflexivity.
  - vm_compute. reflexivity.
  - split; [exact Hstatus|]. split; [exact Hconn|exact Hdown].
Defined.

(* ================================================================== *)
(** * A lost connection ends the run *)

Section Loss.

Variable json_loads : string -> json + loads_error.



End Loss.




(* ================================================================== *)
(** * Messages that end the connection *)

Section Frames.

Variable json_loads : string -> json + loads_error.

Lemma receive_loop_non_object (frame : string) (rest : list string)
    (data : json) (w : world) :
  json_loads frame = inl data ->
  is_object data = false ->
  receive_loop json_loads (frame :: rest) w =
  mkOutcome (Raises AttributeError) w [].
Proof.
  intros Hdec Hobj. cbn [receive_loop].
  unfold bind, receive_one, try_except, loads. rewrite Hdec.
  destruct data; try discriminate Hobj; reflexivity.
Qed.

(** The register message goes out, or its failure is logged, and the
    world stays as it is. *)
Lemma register_run (message : json) (failure : option exn) (w : world) :
  websocket (self w) <> None ->
  (forall e, failure = Some e -> is_Exception e = true) ->
  exists t, _send_signaling_message message failure w =
            mkOutcome (Returns tt) w t.
Proof.
  intros Hws Hord. unfold _send_signaling_message, bind, get_self.
  cbn [result final trace].
  destruct (websocket (self w)) as [ws|]; [|congruence].
  unfold try_except, websocket_send. destruct failure as [e|].
  - cbn [raise result final trace]. rewrite (Hord e eq_refl).
    eexists. reflexivity.
  - eexists. reflexivity.
Qed.

Lemma connect_signaling_non_object (senv : signaling_env) (ws : handle)
    (frame : string) (rest : list string) (data : json) (w : world) :
  connect_result senv = inl ws ->
  (forall e, register_failure senv = Some e -> is_Exception e = true) ->
  inbound senv = frame :: rest ->
  json_loads frame = inl data ->
  is_object data = false ->
  result (connect_signaling json_loads senv w) = Raises AttributeError.
Proof.
  intros Hconn Hreg Hin Hdec Hobj. unfold connect_signaling.
  rewrite (bind_run _ _ w w (self w) [] eq_refl). cbn [result].
  rewrite (bind_run _ _ w w tt
             [Log INFO "Connecting to signaling server: "
                (StrArg (signaling_url (self w)))] eq_refl).
  cbn [result]. rewrite Hconn, Hin. unfold try_except.
  pose (w1 := mkWorld (with_websocket (Some ws) (self w)) (ready w)).
  rewrite (bind_run _ _ w w1 tt [Connect (signaling_url (self w))] eq_refl).
  cbn [result].
  rewrite (bind_run _ _ w1 w1 tt
             [Log INFO "Connected to signaling server" NoArg] eq_refl).
  cbn [result].
  destruct (register_run (register_message (self w)) (register_failure senv)
              w1) as (t & Hsend).
  { destruct w as [s q]. destruct s. discriminate. }
  { exact Hreg. }
  rewrite (bind_run _ _ w1 w1 tt t Hsend). cbn [result].
  rewrite (bind_raises _ _ w1 AttributeError);
    [|rewrite (receive_loop_non_object frame rest data w1 Hdec Hobj);
      reflexivity].
  cbn [result is_Exception].
  rewrite (receive_loop_non_object frame rest data w1 Hdec Hobj).
  cbn [final].
  rewrite (bind_run _ _ w1 w1 tt
             [Log ERROR "Signaling connection error: "
                (ExnArg AttributeError)] eq_refl).
  reflexivity.
Qed.

End Frames.

(** X7: a frame that decodes to something other than an object (a JSON
    list, number, text, true, false or null) raises AttributeError out
    of the receive loop, with nothing logged by the loop; the frames
    after it are never handled, [connect_signaling] fails with that
    error and [run] stops the streamer. *)
Theorem non_object_frame_ends_connection :
  forall (json_loads : string -> json + loads_error) (frame : string)
         (rest : list string) (data : json),
    json_loads frame = inl data ->
    is_object data = false ->
    (forall w : world,
       receive_loop json_loads (frame :: rest) w =
       mkOutcome (Raises AttributeError) w []) /\
    (forall (eenv : engine_env) (senv : signaling_env) (ws : handle)
            (w : world),
       result (start eenv w) = Returns tt ->
       connect_result senv = inl ws ->
       (forall e, register_failure senv = Some e -> is_Exception e = true) ->
       inbound senv = frame :: rest ->
       let o := run json_loads eenv senv w in
       result o = Returns tt /\
       pipeline (self (final o)) = None /\
       websocket (self (final o)) = None).
Proof.
  intros json_loads frame rest data Hdec Hobj. split.
  - intros w. exact (receive_loop_non_object json_loads frame rest data w
                       Hdec Hobj).
  - intros eenv senv ws w Hstart Hconn Hreg Hin.
    apply (run_stops_on_loss json_loads eenv senv w AttributeError Hstart);
      [|reflexivity].
    exact (connect_signaling_non_object json_loads senv ws frame rest data _
             Hconn Hreg Hin Hdec Hobj).
Qed.

Lemma non_object_frame_ends_connection_witness :
  receive_loop (fun _ => inl (JArr [])) ["[]"; "later"] connected =
  mkOutcome (Raises AttributeError) connected [] /\
  let o := run (fun _ => inl (JArr [])) good_engine
             (mkSignalingEnv (inl 3%nat) None ["[]"; "later"] None) fresh in
  result o = Returns tt /\
  pipeline (self (final o)) = None /\
  websocket (self (final o)) = None.
Proof.
  destruct (non_object_frame_ends_connection (fun _ => inl (JArr []))
              "[]" ["later"] (JArr []) eq_refl eq_refl) as [Hloop Hrun].
  split; [apply Hloop|].
  apply (Hrun good_engine
           (mkSignalingEnv (inl 3%nat) None ["[]"; "later"] None) 3%nat fresh).
  - vm_compute. reflexivity.
  - reflexivity.
  - intros e H. discriminate H.
  - reflexivity.
Defined.

(** X8: an answer that cannot be applied is logged as received and then
    raises, before the engine is called and without a change to the
    streamer: TypeError when its sdp is truthy but no text (a number,
    [true], a non-empty list or object), UnicodeEncodeError when it is
    text with a lone surrogate, whatever webrtcbin is, and AttributeError
    when it is text with an UTF-8 encoding and no webrtcbin is set. *)
Theorem answer_that_cannot_be_applied_raises :
  forall (d : dict) (w : world),
    get d "type" = JStr "answer" ->
    truthy (get d "sdp") = true ->
    (is_text (get d "sdp") = false ->
     _handle_signaling_message (JObj d) w =
     mkOutcome (Raises TypeError) w [Log INFO "Received SDP answer" NoArg]) /\
    (forall code_points : list Z,
       get d "sdp" = JSurrogates code_points ->
       _handle_signaling_message (JObj d) w =
       mkOutcome (Raises UnicodeEncodeError) w
         [Log INFO "Received SDP answer" NoArg]) /\
    (forall text : string,
       get d "sdp" = JStr text ->
       webrtcbin (self w) = None ->
       _handle_signaling_message (JObj d) w =
       mkOutcome (Raises AttributeError) w
         [Log INFO "Received SDP answer" NoArg]).
Proof.
  intros d w Htype Htruthy. unfold _handle_signaling_message.
  rewrite Htype. cbn [is_str]. rewrite String.eqb_refl.
  unfold handle_answer. rewrite Htruthy.
  split; [|split].
  - intros Htext. destruct (get d "sdp"); try discriminate Htext; reflexivity.
  - intros cps Hsdp. rewrite Hsdp. reflexivity.
  - intros text Hsdp Hbin. rewrite Hsdp.
    unfold webrtcbin_emit, bind, log, tell, get_self.
    cbn [result final trace]. rewrite Hbin. reflexivity.
Qed.

Lemma answer_that_cannot_be_applied_raises_witness :
  _handle_signaling_message
    (JObj [("type", JStr "answer"); ("sdp", JInt 7)]) started =
  mkOutcome (Raises TypeError) started
    [Log INFO "Received SDP answer" NoArg] /\
  _handle_signaling_message
    (JObj [("type", JStr "answer"); ("sdp", JSurrogates [55296%Z])]) started =
  mkOutcome (Raises UnicodeEncodeError) started
    [Log INFO "Received SDP answer" NoArg] /\
  _handle_signaling_message (answer_message "v=0") fresh =
  mkOutcome (Raises AttributeError) fresh
    [Log INFO "Received SDP answer" NoArg].
Proof.
  split; [|split].
  - apply (answer_that_cannot_be_applied_raises
             [("type", JStr "answer"); ("sdp", JInt 7)] started);
      reflexivity.
  - apply (answer_that_cannot_be_applied_raises
             [("type", JStr "answer"); ("sdp", JSurrogates [55296%Z])]
             started) with (code_points := [55296%Z]); reflexivity.
  - apply (answer_that_cannot_be_applied_raises
             [("type", JStr "answer"); ("sdp", JStr "v=0")] fresh)
      with (text := "v=0"); reflexivity.
Defined.

(* ================================================================== *)
(** * The order of the local candidates *)

(** Discovering candidates schedules one send per candidate, behind what
    is already scheduled. *)
Lemma discover_run (cands : list (Z * string)) (s : streamer)
    (q : list task) :
  exists t,
    react_all (map (discovered LoopThread) cands) (mkWorld s q) =
    mkOutcome (Returns tt)
      (mkWorld s (q ++ map (fun c => SendTask (local_candidate_message s c))
                         cands)) t /\
    filter is_send t = [].
Proof.
  revert q. induction cands as [|c cands IH]; intros q.
  - exists []. cbn [map react_all]. rewrite app_nil_r. split; reflexivity.
  - destruct (IH (q ++ [SendTask (local_candidate_message s c)]))
      as (t & Hrun & Ht).
    eexists. cbn [map react_all]. split.
    + unfold discovered at 1. cbn [react]. unfold _on_ice_candidate.
      rewrite (bind_assoc _ _ _ (mkWorld s q)).
      rewrite (bind_run _ _ (mkWorld s q) (mkWorld s q) tt
                 [Log DEBUG "ICE candidate: " (StrArg (snd c))] eq_refl).
      cbn [result final trace].
      rewrite (bind_assoc _ _ _ (mkWorld s q)).
      rewrite (bind_run _ _ (mkWorld s q) (mkWorld s q) tt [] eq_refl).
      cbn [result final trace].
      rewrite (bind_assoc _ _ _ (mkWorld s q)).
      rewrite (bind_run _ _ (mkWorld s q) (mkWorld s q) s [] eq_refl).
      cbn [result final trace].
      rewrite (bind_run _ _ (mkWorld s q)
                 (mkWorld s (q ++ [SendTask (local_candidate_message s c)]))
                 tt
                 [CreateTask (SendTask (local_candidate_message s c))]
                 eq_refl).
      rewrite Hrun. cbn [result final trace app].
      rewrite <- app_assoc. cbn [app]. reflexivity.
    + cbn [filter is_send]. exact Ht.
Qed.

(** Running as many tasks as sends are scheduled transmits them oldest
    first. *)
Lemma run_tasks_run (messages : list json) (s : streamer) :
  websocket s <> None ->
  react_all (run_tasks (length messages)) (mkWorld s (map SendTask messages))
  = mkOutcome (Returns tt) (mkWorld s []) (map sent messages).
Proof.
  intros Hws. induction messages as [|m messages IH].
  - reflexivity.
  - cbn [length run_tasks repeat map react_all].
    assert (Hstep : react (RunTask None)
                      (mkWorld s (SendTask m :: map SendTask messages)) =
                    mkOutcome (Returns tt)
                      (mkWorld s (map SendTask messages)) [Send m]).
    { cbn [react]. unfold run_task, bind, pop_task.
      cbn [ready self result final trace app].
      unfold _send_signaling_message, bind, get_self.
      cbn [ready self result final trace app].
      destruct (websocket s); [reflexivity|congruence]. }
    rewrite (bind_run _ _ _ _ tt [Send m] Hstep).
    fold (run_tasks (length messages)). rewrite IH. reflexivity.
Qed.

Lemma filter_sent (messages : list json) :
  filter is_send (map sent messages) = map sent messages.
Proof.
  induction messages as [|m messages IH]; [reflexivity|].
  cbn [map filter sent is_send]. f_equal. exact IH.
Qed.

(** With nothing scheduled the event loop has nothing to run. *)
Lemma run_tasks_idle (n : nat) (s : streamer) :
  react_all (run_tasks n) (mkWorld s []) =
  mkOutcome (Returns tt) (mkWorld s []) [].
Proof.
  induction n as [|n IH]; [reflexivity|].
  cbn [run_tasks repeat react_all].
  rewrite (bind_run _ _ (mkWorld s []) (mkWorld s []) tt [] eq_refl).
  fold (run_tasks n). rewrite IH. reflexivity.
Qed.

(** X9: on an open websocket with no task pending, the local candidates
    discovered on the thread of the event loop reach the signaling server,
    when no send fails, in the order the engine discovered them: each
    discovery schedules one send, and the event loop runs the scheduled
    sends oldest first; every message carries the session id known when
    the candidate was discovered. A candidate discovered on a thread of
    the engine is logged and lost: [asyncio.get_event_loop()] raises
    RuntimeError, nothing is scheduled, and whatever the event loop runs
    afterwards sends nothing. *)
Theorem local_candidates_sent_in_discovery_order :
  forall (cands : list (Z * string)) (w : world),
    websocket (self w) <> None ->
    ready w = [] ->
    (let o := react_all (map (discovered LoopThread) cands ++
                         run_tasks (length cands)) w in
     result o = Returns tt /\
     filter is_send (trace o) =
       map (fun c => Send (local_candidate_message (self w) c)) cands /\
     final o = w) /\
    (forall (c : Z * string) (n : nat),
       let o := react (discovered EngineThread c) w in
       result o =
         Raises (RuntimeError "There is no current event loop in thread") /\
       final o = w /\
       trace o = [Log DEBUG "ICE candidate: " (StrArg (snd c))] /\
       filter is_send (trace (react_all (run_tasks n) (final o))) = []).
Proof.
  intros cands w Hws Hq. destruct w as [s q].
  cbn [self ready] in *. subst q. split.
  - cbn zeta. rewrite react_all_app.
    destruct (discover_run cands s []) as (t & Hrun & Ht).
    rewrite (bind_run _ _ _ _ tt t Hrun). cbn [app].
    pose proof (run_tasks_run (map (local_candidate_message s) cands) s Hws)
      as Htasks.
    rewrite length_map, map_map in Htasks. rewrite Htasks.
    cbn [result final trace]. split; [reflexivity|]. split; [|reflexivity].
    rewrite filter_app, Ht, filter_sent, map_map. reflexivity.
  - intros c n. cbn zeta.
    assert (Hrun : react (discovered EngineThread c) (mkWorld s []) =
                   mkOutcome
                     (Raises (RuntimeError
                                "There is no current event loop in thread"))
                     (mkWorld s [])
                     [Log DEBUG "ICE candidate: " (StrArg (snd c))])
      by reflexivity.
    rewrite Hrun. cbn [result final trace].
    rewrite run_tasks_idle. repeat split.
Qed.

Lemma local_candidates_sent_in_discovery_order_witness :
  filter is_send
    (trace (react_all
              [IceCandidate LoopThread 0 "candidate:1";
               IceCandidate LoopThread 0 "candidate:2";
               RunTask None; RunTask None] connected)) =
  [Send (candidate_message 0 "candidate:1" (self connected));
   Send (candidate_message 0 "candidate:2" (self connected))].
Proof.
  destruct (local_candidates_sent_in_discovery_order
              [(0%Z, "candidate:1"); (0%Z, "candidate:2")] connected)
    as ((_ & Hsent & _) & _).
  - discriminate.
  - reflexivity.
  - exact Hsent.
Defined.

(* ================================================================== *)
(** * State changes, bus messages and the shutdown signal *)

(** X10: a change of the ICE or of the peer connection state is logged and
    nothing else: whatever the states reported, failure included, the
    streamer and the scheduled tasks stay as they are, nothing is sent,
    renegotiated or torn down. *)
Theorem state_changes_are_only_logged :
  forall (evs : list event) (w : world),
    forallb is_state_callback evs = true ->
    let o := react_all evs w in
    result o = Returns tt /\ final o = w /\ Forall logged (trace o).
Proof.
  intros evs w. revert w. induction evs as [|ev evs IH]; intros w Hevs.
  - cbn. repeat split. constructor.
  - cbn [forallb] in Hevs. apply andb_true_iff in Hevs as [Hev Hevs].
    cbn zeta. cbn [react_all].
    assert (Hstep : exists t, react ev w = mkOutcome (Returns tt) w t /\
                              Forall logged t).
    { destruct ev as [| | | ice | peer | | |]; try discriminate Hev.
      - destruct ice; eexists; (split; [reflexivity|]); repeat constructor.
      - eexists. split; [reflexivity|]. repeat constructor. }
    destruct Hstep as (t & Hstep & Ht).
    rewrite (bind_run _ _ w w tt t Hstep). cbn [result final trace].
    destruct (IH w Hevs) as (Hr & Hf & Htr).
    split; [exact Hr|]. split; [exact Hf|].
    apply Forall_app. split; assumption.
Qed.

Lemma state_changes_are_only_logged_witness :
  let o := react_all [IceConnectionState ICE_CHECKING;
                      ConnectionState PEER_FAILED;
                      IceConnectionState ICE_FAILED] connected in
  result o = Returns tt /\ final o = connected /\ Forall logged (trace o).
Proof.
  apply (state_changes_are_only_logged
           [IceConnectionState ICE_CHECKING; ConnectionState PEER_FAILED;
            IceConnectionState ICE_FAILED] connected).
  reflexivity.
Defined.

(** X11: of the messages of the pipeline's bus, an error and the end of
    the stream stop the streamer, releasing whatever pipeline and
    websocket are set; a warning, a state change and any other message
    leave the world as it is and tear nothing down. *)
Theorem bus_error_and_eos_stop_streamer :
  forall (message : bus_message) (w : world),
    let o := _on_bus_message message w in
    result o = Returns tt /\
    if stops_streamer message then
      filter is_teardown (trace o) = releases w /\
      pipeline (self (final o)) = None /\
      websocket (self (final o)) = None
    else
      filter is_teardown (trace o) = [] /\ final o = w.
Proof.
  intros message w. cbn zeta.
  destruct message as [err debug | warn | | src old new |];
    cbn [stops_streamer].
  - destruct w as [s q]. destruct s as [d wd h f b u st p bin ws l id].
    destruct p, ws, l; lazy; repeat split.
  - lazy. repeat split.
  - destruct w as [s q]. destruct s as [d wd h f b u st p bin ws l id].
    destruct p, ws, l; lazy; repeat split.
  - destruct (state_changed_run src old new w) as (t & Hrun & Ht).
    rewrite Hrun. cbn [result final trace].
    split; [reflexivity|]. split; [|reflexivity].
    apply filter_no_teardown.
    eapply Forall_impl; [exact local_no_teardown|exact Ht].
  - lazy. repeat split.
Qed.

(** Past its last statement [stop] stays returned. *)
Lemma stop_steps_return (k : nat) (w : world) :
  stop_steps k AtReturn w = mkOutcome (Returns AtReturn) w [].
Proof.
  induction k as [|k IH]; [reflexivity|].
  cbn [stop_steps stop_step].
  rewrite (bind_run _ _ w w AtReturn [] eq_refl). rewrite IH. reflexivity.
Qed.

Lemma stop_steps_plus (a b : nat) (pc : stop_pc) (w : world) :
  stop_steps (a + b) pc w = bind (stop_steps a pc) (stop_steps b) w.
Proof.
  revert pc w. induction a as [|a IH]; intros pc w.
  - cbn [Nat.add stop_steps]. rewrite ret_bind. reflexivity.
  - cbn [Nat.add stop_steps]. rewrite bind_assoc. apply bind_ext.
    intros next w'. apply IH.
Qed.

Lemma stop_steps_beyond (k : nat) (w : world) :
  stop_steps (10 + k) AtLogStopping w =
  mkOutcome (Returns AtReturn) (final (stop w)) (trace (stop w)).
Proof.
  rewrite stop_steps_plus.
  destruct (stop_steps_agree w) as (Hr & Hf & Ht).
  cbn zeta in Hr, Hf, Ht.
  rewrite (bind_returns _ _ w AtReturn Hr).
  rewrite stop_steps_return. cbn [result final trace].
  rewrite app_nil_r, Hf, Ht. reflexivity.
Qed.

Lemma signal_handler_run (w : world) :
  let o := signal_handler w in
  result o = Raises (SystemExit 0) /\
  pipeline (self (final o)) = None /\
  websocket (self (final o)) = None /\
  filter is_pipeline_null (trace o) =
  match pipeline (self w) with Some _ => [SetState NULL] | None => [] end.
Proof.
  destruct w as [s q]. destruct s as [d wd h f b u st p bin ws l id].
  destruct p, ws, l; lazy; repeat split.
Qed.

Lemma stop_pipeline_null (w : world) :
  pipeline (self (final (stop w))) = None /\
  filter is_pipeline_null (trace (stop w)) =
  match pipeline (self w) with Some _ => [SetState NULL] | None => [] end.
Proof.
  destruct w as [s q]. destruct s as [d wd h f b u st p bin ws l id].
  destruct p, ws, l; lazy; repeat split.
Qed.

(** X12: a shutdown signal that arrives while [stop] runs, after any
    number of its statements, ends in [sys.exit(0)] with the pipeline and
    the websocket released; a pipeline that was set is set to NULL at
    least once and at most twice, and one that was not set, never. *)
Theorem signal_during_stop_exits_with_0 :
  forall (n : nat) (w : world),
    let o := stop_interrupted n w in
    result o = Raises (SystemExit 0) /\
    exit_status (result o) = 0%Z /\
    pipeline (self (final o)) = None /\
    websocket (self (final o)) = None /\
    match pipeline (self w) with
    | Some _ => (1 <= count is_pipeline_null (trace o) <= 2)%nat
    | None => count is_pipeline_null (trace o) = 0%nat
    end.
Proof.
  intros n w. cbn zeta.
  destruct (le_lt_dec 10 n) as [Hbig|Hsmall].
  - replace n with (10 + (n - 10))%nat by lia.
    unfold stop_interrupted.
    rewrite (bind_run _ _ w _ AtReturn _ (stop_steps_beyond (n - 10) w)).
    cbn [result final trace].
    destruct (signal_handler_run (final (stop w))) as (Hr & Hp & Hws & Ht).
    cbn zeta in Hr, Hp, Hws, Ht.
    destruct (stop_pipeline_null w) as (Hp0 & Ht0).
    rewrite Hr, Hp, Hws. cbn [exit_status].
    do 4 (split; [reflexivity|]).
    unfold count. rewrite filter_app, Ht, Ht0, Hp0.
    destruct (pipeline (self w)); cbn; lia.
  - destruct w as [s q]. destruct s as [d wd h f b u st p bin ws l id].
    do 10 (destruct n as [|n]; [destruct p, ws, l; lazy; repeat split;
                                 repeat constructor|]).
    lia.
Qed.

(* ================================================================== *)
(** * Offers are described locally before they are sent *)

Lemma offers_described_app (t u : list effect) (seen : list string) :
  offers_described (t ++ u) seen =
  offers_described t seen && offers_described u (described_after t seen).
Proof.
  revert seen. induction t as [|e t IH]; intros seen; [reflexivity|].
  destruct e; cbn [app offers_described described_after]; rewrite ?IH;
    try reflexivity.
  rewrite andb_assoc. reflexivity.
Qed.

Lemma described_after_incl (t : list effect) (seen : list string) :
  incl seen (described_after t seen).
Proof.
  revert seen. induction t as [|e t IH]; intros seen; [apply incl_refl|].
  destruct e; cbn [described_after]; try apply IH.
  eapply incl_tran; [|apply IH]. apply incl_tl, incl_refl.
Qed.

Lemma local_offers_described (t : list effect) (seen : list string) :
  Forall local_effect t -> offers_described t seen = true.
Proof.
  intros H. revert seen. induction H as [|e t He _ IH]; intros seen;
    [reflexivity|].
  destruct e; cbn [offers_described]; try apply IH.
  cbn [local_effect] in He. contradiction.
Qed.

Lemma pending_described_incl (seen seen' : list string) (w : world) :
  incl seen seen' -> pending_described seen w -> pending_described seen' w.
Proof. intros Hincl H m text Hin Hm. apply Hincl. exact (H m text Hin Hm). Qed.

Lemma existsb_eqb_in (text : string) (seen : list string) :
  In text seen -> existsb (String.eqb text) seen = true.
Proof.
  intros H. apply existsb_exists. exists text. split; [exact H|].
  apply String.eqb_refl.
Qed.

(** One event keeps the offers described. *)
Lemma react_offers_described (ev : event) (seen : list string) (w : world) :
  pending_described seen w ->
  let o := react ev w in
  offers_described (trace o) seen = true /\
  pending_described (described_after (trace o) seen) (final o).
Proof.
  intros Hq. cbn zeta.
  assert (Hstop : forall w', pending_described seen w' ->
            offers_described (trace (stop w')) seen = true /\
            pending_described (described_after (trace (stop w')) seen)
              (final (stop w'))).
  { intros w' Hq'. destruct w' as [s q].
    destruct s as [d wd h f b u st p bin ws l id].
    unfold pending_described in *. cbn [ready] in Hq'.
    destruct p, ws, l; lazy -[In]; (split; [reflexivity|]);
      intros m text Hin Hm; try (exact (Hq' m text Hin Hm));
      apply in_app_or in Hin as [Hin|Hin];
      try (exact (Hq' m text Hin Hm));
      destruct Hin as [Hin|[]]; discriminate Hin. }
  destruct ev as [| th offer | th mline cand | ice | peer | msg | data | failure];
    cbn [react].
  - split; [reflexivity|exact Hq].
  - destruct offer as [sdp|]; [|split; [reflexivity|exact Hq]].
    destruct th; (split; [reflexivity|]);
      intros m text Hin Hm; cbn in Hin.
    + apply in_app_or in Hin as [Hin|Hin].
      * right. exact (Hq m text Hin Hm).
      * destruct Hin as [Hin|[]]. inversion Hin; subst m.
        cbn in Hm. inversion Hm; subst. left. reflexivity.
    + right. exact (Hq m text Hin Hm).
  - destruct th; (split; [reflexivity|]);
      intros m text Hin Hm; cbn in Hin.
    + apply in_app_or in Hin as [Hin|Hin].
      * exact (Hq m text Hin Hm).
      * destruct Hin as [Hin|[]]. inversion Hin; subst m.
        cbn in Hm. discriminate Hm.
    + exact (Hq m text Hin Hm).
  - destruct ice; split; try reflexivity; exact Hq.
  - split; [reflexivity|exact Hq].
  - destruct msg as [err debug | warn | | src old new |].
    + cbn [_on_bus_message].
      rewrite (bind_run _ _ w w tt [Log ERROR "Pipeline error: " (StrArg err)]
                 eq_refl).
      cbn [trace final].
      rewrite (bind_run _ _ w w tt [Log DEBUG "Debug info: " (StrArg debug)]
                 eq_refl).
      cbn [trace final app offers_described described_after].
      exact (Hstop w Hq).
    + split; [reflexivity|exact Hq].
    + cbn [_on_bus_message].
      rewrite (bind_run _ _ w w tt [Log INFO "End of stream" NoArg] eq_refl).
      cbn [trace final app offers_described described_after].
      exact (Hstop w Hq).
    + destruct (state_changed_run src old new w) as (t & Hrun & Ht).
      rewrite Hrun. cbn [trace final].
      split; [apply local_offers_described; exact Ht|].
      eapply pending_described_incl; [apply described_after_incl|exact Hq].
    + split; [reflexivity|exact Hq].
  - destruct (handle_effects data w) as (Hr & Ht & _).
    split; [apply local_offers_described; exact Ht|].
    eapply pending_described_incl; [apply described_after_incl|].
    intros m text Hin Hm. rewrite Hr in Hin. exact (Hq m text Hin Hm).
  - unfold run_task, bind, pop_task. destruct w as [s q].
    unfold pending_described in Hq. cbn [ready] in Hq.
    destruct q as [|t q]; cbn [ready self result final trace app].
    + split; [reflexivity|]. intros m text [].
    + assert (Hrest : forall seen', incl seen seen' ->
                pending_described seen' (mkWorld s q)).
      { intros seen' Hincl m text Hin Hm. apply Hincl.
        apply (Hq m text); [right; exact Hin|exact Hm]. }
      destruct t as [message|].
      * unfold _send_signaling_message, bind, get_self.
        cbn [ready self result final trace app].
        destruct (websocket s);
          [|split; [reflexivity|apply Hrest, incl_refl]].
        unfold try_except, websocket_send.
        destruct failure as [e|].
        -- cbn [raise result final trace].
           destruct (is_Exception e); cbn [result final trace app];
             (split; [reflexivity|apply Hrest, incl_refl]).
        -- cbn [tell result final trace offers_described described_after].
           split; [|apply Hrest, incl_refl].
           rewrite andb_true_r.
           destruct (offer_sdp message) as [text|] eqn:Hm; [|reflexivity].
           apply existsb_eqb_in. apply (Hq message text); [left|]; auto.
      * cbn [tell result final trace]. split; [reflexivity|].
        apply Hrest, incl_refl.
Qed.

Lemma react_all_offers_described (evs : list event) (seen : list string)
    (w : world) :
  pending_described seen w ->
  offers_described (trace (react_all evs w)) seen = true.
Proof.
  revert seen w. induction evs as [|ev evs IH]; intros seen w Hq;
    [reflexivity|].
  cbn [react_all]. unfold bind.
  destruct (react_offers_described ev seen w Hq) as [Ht Hq'].
  cbn zeta in Ht, Hq'.
  destruct (result (react ev w)) as [[]|e]; cbn [trace]; [|exact Ht].
  rewrite offers_described_app, Ht. cbn [andb]. apply IH. exact Hq'.
Qed.

(** X13: an offer reaches the signaling server only after its SDP text was
    handed to the engine as the local description: whatever the
    callbacks, messages and tasks, as long as no offer was waiting to be
    sent at the start, every offer sent carries a text set as local
    description earlier in the trace. *)
Theorem offers_sent_were_set_locally :
  forall (evs : list event) (w : world),
    pending_described [] w ->
    offers_described (trace (react_all evs w)) [] = true.
Proof.
  intros evs w Hq. exact (react_all_offers_described evs [] w Hq).
Qed.

Lemma offers_sent_were_set_locally_witness :
  offers_described
    (trace (react_all [NegotiationNeeded;
                       OfferCreated LoopThread (Some "v=0");
                       RunTask None] connected)) [] = true.
Proof.
  apply (offers_sent_were_set_locally
           [NegotiationNeeded; OfferCreated LoopThread (Some "v=0");
            RunTask None]
           connected).
  intros m text Hin. destruct Hin.
Defined.

(* ================================================================== *)
(** * The resolution, parsed and written *)

(** ** [str.split] with a separator *)

Lemma split_nonempty (sep : ascii) (s : string) : PyStr.split sep s <> [].
Proof.
  destruct s as [|c rest]; cbn [PyStr.split]; [discriminate|].
  destruct (Ascii.eqb c sep); [discriminate|].
  destruct (PyStr.split sep rest); discriminate.
Qed.

Lemma split_one (sep : ascii) (s p : string) :
  PyStr.split sep s = [p] <-> s = p /\ count_char sep p = 0%nat.
Proof.
  revert p. induction s as [|c rest IH]; intros p; cbn [PyStr.split].
  - split.
    + intros H. inversion H; subst. split; reflexivity.
    + intros [<- _]. reflexivity.
  - destruct (Ascii.eqb c sep) eqn:Hc.
    + split.
      * intros H. inversion H as [[Hp Hrest]].
        exfalso. exact (split_nonempty sep rest Hrest).
      * intros [<- Hcount]. cbn [count_char] in Hcount. rewrite Hc in Hcount.
        discriminate Hcount.
    + destruct (PyStr.split sep rest) as [|piece pieces] eqn:Hrest.
      * exfalso. exact (split_nonempty sep rest Hrest).
      * split.
        -- intros H. inversion H; subst.
           destruct (proj1 (IH piece) eq_refl) as [-> Hcount].
           split; [reflexivity|]. cbn [count_char]. rewrite Hc. exact Hcount.
        -- intros [<- Hcount]. cbn [count_char] in Hcount. rewrite Hc in Hcount.
           cbn [Nat.add] in Hcount.
           pose proof (proj2 (IH rest) (conj eq_refl Hcount)) as H.
           inversion H; subst. reflexivity.
Qed.

Lemma split_two (sep : ascii) (s p q : string) :
  PyStr.split sep s = [p; q] <->
  s = (p ++ String sep q)%string /\
  count_char sep p = 0%nat /\ count_char sep q = 0%nat.
Proof.
  revert p. induction s as [|c rest IH]; intros p; cbn [PyStr.split].
  - split; [discriminate|].
    intros [H _]. destruct p; discriminate H.
  - destruct (Ascii.eqb c sep) eqn:Hc.
    + apply Ascii.eqb_eq in Hc as Hc'. subst c. split.
      * intros H. inversion H as [[Hp Hrest]].
        apply split_one in Hrest as [-> Hq]. repeat split. exact Hq.
      * intros (Hs & Hp & Hq). destruct p as [|a p].
        -- cbn [append] in Hs. inversion Hs; subst.
           rewrite (proj2 (split_one sep q q) (conj eq_refl Hq)). reflexivity.
        -- cbn [append] in Hs. inversion Hs; subst.
           cbn [count_char] in Hp. rewrite Hc in Hp. discriminate Hp.
    + destruct (PyStr.split sep rest) as [|piece pieces] eqn:Hrest.
      * exfalso. exact (split_nonempty sep rest Hrest).
      * split.
        -- intros H. inversion H; subst.
           destruct (proj1 (IH piece) eq_refl) as (-> & Hp & Hq).
           split; [reflexivity|]. split; [|exact Hq].
           cbn [count_char]. rewrite Hc. exact Hp.
        -- intros (Hs & Hp & Hq). destruct p as [|a p].
           ++ cbn [append] in Hs. inversion Hs; subst.
              rewrite Ascii.eqb_refl in Hc. discriminate Hc.
           ++ cbn [append] in Hs. inversion Hs; subst.
              cbn [count_char] in Hp. rewrite Hc in Hp. cbn [Nat.add] in Hp.
              pose proof (proj2 (IH p) (conj eq_refl (conj Hp Hq))) as H.
              inversion H; subst. reflexivity.
Qed.

(** X14: [main] accepts a resolution of ASCII characters exactly when it
    is two pieces around one single [x], each of which [int] accepts; the
    pieces may carry blanks, signs and underscores, a second [x] or none
    is refused. *)
Theorem accepted_resolution_has_one_x :
  forall (max_str_digits : nat) (resolution : string) (width height : Z),
    PyStr.ascii_text resolution = true ->
    (parse_resolution max_str_digits resolution = Some (width, height) <->
     exists p q,
      resolution = (p ++ "x" ++ q)%string /\
      count_char "x" p = 0%nat /\ count_char "x" q = 0%nat /\
      PyStr.int max_str_digits p = Some width /\
      PyStr.int max_str_digits q = Some height).
Proof.
  intros max_str_digits resolution width height _.
  rewrite parse_resolution_spec. split.
  - intros (p & q & Hsplit & Hp & Hq). exists p, q.
    apply split_two in Hsplit as (Hs & Hcp & Hcq).
    repeat split; assumption.
  - intros (p & q & Hs & Hcp & Hcq & Hp & Hq). exists p, q.
    split; [|split; assumption].
    apply split_two. repeat split; assumption.
Qed.

Lemma accepted_resolution_has_one_x_witness :
  exists p q,
    "1_280x 720" = (p ++ "x" ++ q)%string /\
    count_char "x" p = 0%nat /\ count_char "x" q = 0%nat /\
    PyStr.int 4300 p = Some 1280%Z /\
    PyStr.int 4300 q = Some 720%Z.
Proof.
  apply (proj1 (accepted_resolution_has_one_x 4300 "1_280x 720" 1280 720
                  eq_refl)).
  vm_compute. reflexivity.
Defined.

(** ** [int] reads back what [str] writes *)

Lemma scan_uint_pos (d : Decimal.uint) (p : positive) (n : nat) :
  PyStr.scan_digits (NilEmpty.string_of_uint d) false (Z.pos p) n =
  Some (Z.pos (Pos.of_uint_acc d p),
        (n + String.length (NilEmpty.string_of_uint d))%nat, EmptyString).
Proof.
  revert p n. induction d as [|d IH|d IH|d IH|d IH|d IH|d IH|d IH|d IH|d IH|d IH];
    intros p n;
    cbn [NilEmpty.string_of_uint Pos.of_uint_acc String.length].
  1: { cbn [PyStr.scan_digits]. rewrite Nat.add_0_r. reflexivity. }
  all: match goal with
       | |- PyStr.scan_digits (String ?c ?rest) false ?acc ?m = _ =>
           let v := eval vm_compute in (PyStr.digit_value c) in
           change (PyStr.scan_digits (String c rest) false acc m)
             with (PyStr.scan_digits rest false (10 * acc + v)%Z (S m))
       end;
       match goal with
       | |- PyStr.scan_digits _ false ?v _ = Some (Z.pos (Pos.of_uint_acc _ ?q), _, _) =>
           replace v with (Z.pos q)
             by lia
       end;
       rewrite IH; rewrite Nat.add_succ_r; reflexivity.
Qed.

Lemma scan_uint (d : Decimal.uint) (n : nat) :
  PyStr.scan_digits (NilEmpty.string_of_uint d) false 0%Z n =
  Some (Z.of_N (Pos.of_uint d),
        (n + String.length (NilEmpty.string_of_uint d))%nat, EmptyString).
Proof.
  revert n. induction d as [|d IH|d IH|d IH|d IH|d IH|d IH|d IH|d IH|d IH|d IH];
    intros n; cbn [NilEmpty.string_of_uint Pos.of_uint String.length].
  1: { cbn [PyStr.scan_digits]. rewrite Nat.add_0_r. reflexivity. }
  1: { change (PyStr.scan_digits (String "0" (NilEmpty.string_of_uint d))
                 false 0%Z n)
         with (PyStr.scan_digits (NilEmpty.string_of_uint d) false 0%Z (S n)).
       rewrite IH, Nat.add_succ_r. reflexivity. }
  all: match goal with
       | |- PyStr.scan_digits (String ?c ?rest) false ?acc ?m = _ =>
           let v := eval vm_compute in (PyStr.digit_value c) in
           change (PyStr.scan_digits (String c rest) false acc m)
             with (PyStr.scan_digits rest false (10 * acc + v)%Z (S m))
       end;
       match goal with
       | |- PyStr.scan_digits _ false ?v _ =
            Some (Z.of_N (N.pos (Pos.of_uint_acc _ ?q)), _, _) =>
           change v with (Z.pos q)
       end;
       rewrite scan_uint_pos, Nat.add_succ_r; reflexivity.
Qed.

Lemma to_uint_not_nil (p : positive) : Pos.to_uint p <> Decimal.Nil.
Proof.
  intros H. pose proof (DecimalPos.Unsigned.of_to p) as Hp.
  rewrite H in Hp. discriminate Hp.
Qed.

Lemma length_uint_pos (d : Decimal.uint) :
  d <> Decimal.Nil ->
  (String.length (NilEmpty.string_of_uint d) =? 0)%nat = false.
Proof. destruct d; [congruence|..]; reflexivity. Qed.

(** [int] on the digits of a nonzero numeral. *)
Lemma unsigned_int_uint (max_str_digits : nat) (d : Decimal.uint) :
  d <> Decimal.Nil ->
  (max_str_digits = 0%nat \/
   (String.length (NilEmpty.string_of_uint d) <= max_str_digits)%nat) ->
  PyStr.unsigned_int max_str_digits (NilEmpty.string_of_uint d) =
  Some (Z.of_N (Pos.of_uint d)).
Proof.
  intros Hd Hlimit. unfold PyStr.unsigned_int.
  rewrite scan_uint. cbn [Nat.add PyStr.all_space negb].
  rewrite (length_uint_pos d Hd).
  assert (Hok : ((0 <? max_str_digits)%nat &&
                 (max_str_digits <? String.length
                                      (NilEmpty.string_of_uint d))%nat)
                = false).
  { destruct Hlimit as [-> | Hle].
    - reflexivity.
    - apply andb_false_iff. right. apply Nat.ltb_ge. exact Hle. }
  rewrite Hok.
  destruct d; [congruence|..]; reflexivity.
Qed.

Lemma int_uint (max_str_digits : nat) (d : Decimal.uint) :
  d <> Decimal.Nil ->
  PyStr.int max_str_digits (NilEmpty.string_of_uint d) =
  PyStr.unsigned_int max_str_digits (NilEmpty.string_of_uint d).
Proof. intros Hd. destruct d; [congruence|..]; reflexivity. Qed.

Lemma int_str_of_int (max_str_digits : nat) (n : Z) :
  digits_allowed max_str_digits n ->
  PyStr.int max_str_digits (PyStr.str_of_int n) = Some n.
Proof.
  unfold digits_allowed, PyStr.str_of_int. destruct n as [|p|p];
    cbn [Z.abs Z.to_int NilZero.string_of_int].
  - intros _. unfold PyStr.int, PyStr.unsigned_int.
    cbn. destruct max_str_digits as [|[|m]]; reflexivity.
  - intros Hlimit. pose proof (to_uint_not_nil p) as Hd.
    assert (Hs : NilZero.string_of_uint (Pos.to_uint p) =
                 NilEmpty.string_of_uint (Pos.to_uint p)).
    { destruct (Pos.to_uint p); [congruence|..]; reflexivity. }
    rewrite Hs in *. rewrite (int_uint _ _ Hd).
    rewrite (unsigned_int_uint _ _ Hd Hlimit).
    rewrite DecimalPos.Unsigned.of_to. reflexivity.
  - intros Hlimit. pose proof (to_uint_not_nil p) as Hd.
    assert (Hs : NilZero.string_of_uint (Pos.to_uint p) =
                 NilEmpty.string_of_uint (Pos.to_uint p)).
    { destruct (Pos.to_uint p); [congruence|..]; reflexivity. }
    rewrite Hs in *.
    change (PyStr.int max_str_digits
              (String "-" (NilEmpty.string_of_uint (Pos.to_uint p))))
      with (option_map Z.opp
              (PyStr.unsigned_int max_str_digits
                 (NilEmpty.string_of_uint (Pos.to_uint p)))).
    rewrite (unsigned_int_uint _ _ Hd Hlimit).
    rewrite DecimalPos.Unsigned.of_to. reflexivity.
Qed.

Lemma no_x_uint (d : Decimal.uint) :
  count_char "x" (NilEmpty.string_of_uint d) = 0%nat.
Proof. induction d; cbn [NilEmpty.string_of_uint count_char]; auto. Qed.

Lemma no_x_str_of_int (n : Z) : count_char "x" (PyStr.str_of_int n) = 0%nat.
Proof.
  unfold PyStr.str_of_int. destruct n as [|p|p];
    cbn [Z.to_int NilZero.string_of_int]; [reflexivity| |].
  - destruct (Pos.to_uint p) eqn:Hd; [reflexivity|..];
      rewrite <- Hd; unfold NilZero.string_of_uint; rewrite Hd; rewrite <- Hd;
      apply no_x_uint.
  - cbn [count_char]. change (Ascii.eqb "-" "x") with false. cbn [Nat.add].
    destruct (Pos.to_uint p) eqn:Hd; [reflexivity|..];
      rewrite <- Hd; unfold NilZero.string_of_uint; rewrite Hd; rewrite <- Hd;
      apply no_x_uint.
Qed.

(** X15: the resolution the register message announces is the one [main]
    parsed: written as [f"{width}x{height}"] it reads back, through the
    parsing of [main], as the same width and height, whatever their sign
    and size within the interpreter's digit limit. *)
Theorem registered_resolution_parses_back :
  forall (max_str_digits : nat) (s : streamer),
    digits_allowed max_str_digits (width s) ->
    digits_allowed max_str_digits (height s) ->
    exists text,
      resolution_field (register_message s) = JStr text /\
      parse_resolution max_str_digits text = Some (width s, height s).
Proof.
  intros max_str_digits s Hw Hh.
  exists (PyStr.str_of_int (width s) ++ "x" ++ PyStr.str_of_int (height s))%string.
  split; [reflexivity|].
  apply parse_resolution_spec.
  exists (PyStr.str_of_int (width s)), (PyStr.str_of_int (height s)).
  split; [|split; apply int_str_of_int; assumption].
  apply split_two. split; [reflexivity|].
  split; apply no_x_str_of_int.
Qed.

Lemma registered_resolution_parses_back_witness :
  exists text,
    resolution_field (register_message (self fresh)) = JStr text /\
    parse_resolution 4300 text = Some (1920%Z, 1080%Z).
Proof.
  apply (registered_resolution_parses_back 4300 (self fresh));
    right; vm_compute; lia.
Defined.

(* ================================================================== *)
(** * The text of the pipeline descriptions *)

Import PyText.

(** ** Text: concatenation, f-strings, [split] and [join] *)

Lemma string_app_nil_r (s : string) : (s ++ EmptyString)%string = s.
Proof. induction s as [|c s IH]; cbn [append]; [|rewrite IH]; reflexivity. Qed.

Lemma string_app_assoc (a b c : string) :
  ((a ++ b) ++ c)%string = (a ++ (b ++ c))%string.
Proof. induction a as [|x a IH]; cbn [append]; [|rewrite IH]; reflexivity. Qed.

Lemma fstring_cons (p : part) (rest : list part) :
  fstring (p :: rest) = (text_of p ++ fstring rest)%string.
Proof.
  destruct rest as [|q rest]; [|reflexivity].
  cbn [fstring]. rewrite string_app_nil_r. reflexivity.
Qed.

Lemma fstring_app (a b : list part) :
  fstring (a ++ b) = (fstring a ++ fstring b)%string.
Proof.
  induction a as [|p a IH]; [reflexivity|].
  cbn [app]. rewrite !fstring_cons, IH, string_app_assoc. reflexivity.
Qed.

(** A field that holds an f-string can be replaced by its parts. *)
Lemma fstring_inline (a inner b : list part) :
  fstring (a ++ Field (fstring inner) :: b) = fstring (a ++ inner ++ b).
Proof.
  rewrite !fstring_app, fstring_cons. reflexivity.
Qed.


Lemma plain_no_whitespace (s : string) :
  plain s = true -> no_whitespace s = true.
Proof.
  induction s as [|c s IH]; [reflexivity|]. cbn [plain no_whitespace].
  intros H. apply andb_true_iff in H as [H Hs].
  apply andb_true_iff in H as [_ Hc]. rewrite Hc, (IH Hs). reflexivity.
Qed.

(** Text without whitespace extends the word being read. *)
Lemma split_from_word (v rest word : string) :
  no_whitespace v = true ->
  split_from (v ++ rest) word = split_from rest (word ++ v).
Proof.
  revert word. induction v as [|c v IH]; intros word Hv.
  - cbn [append]. rewrite string_app_nil_r. reflexivity.
  - cbn [no_whitespace] in Hv. apply andb_true_iff in Hv as [Hc Hv].
    apply negb_true_iff in Hc.
    cbn [append split_from]. rewrite Hc, (IH _ Hv), string_app_assoc.
    reflexivity.
Qed.

Lemma fstring_snoc (word : list part) (p : part) :
  fstring (rev (p :: word)) = (fstring (rev word) ++ text_of p)%string.
Proof. cbn [rev]. rewrite fstring_app. reflexivity. Qed.

Lemma words_text_ext (t : string) (word : list part)
    (k k' : list part -> list string) :
  (forall w, k w = k' w) -> words_text t word k = words_text t word k'.
Proof.
  intros Hk. revert word. induction t as [|c t IH]; intros word;
    cbn [words_text]; [apply Hk|].
  destruct (is_whitespace c); rewrite IH; reflexivity.
Qed.

Lemma split_from_text (t rest : string) (word : list part) :
  split_from (t ++ rest) (fstring (rev word)) =
  words_text t word (fun w => split_from rest (fstring (rev w))).
Proof.
  revert word. induction t as [|c t IH]; intros word; [reflexivity|].
  cbn [append split_from words_text]. destruct (is_whitespace c).
  - rewrite <- (IH []). unfold flush. cbn [rev fstring].
    destruct (fstring (rev word)); reflexivity.
  - rewrite <- IH, fstring_snoc. reflexivity.
Qed.

(** The split of an f-string, read off its parts. *)
Lemma split_from_parts (parts word : list part) :
  Forall plain_part parts ->
  split_from (fstring parts) (fstring (rev word)) = words_parts parts word.
Proof.
  intros H. revert word. induction H as [|p parts Hp _ IH]; intros word.
  - cbn [fstring split_from words_parts]. unfold flush.
    destruct (fstring (rev word)); reflexivity.
  - rewrite fstring_cons. destruct p as [t|v]; cbn [text_of words_parts].
    + rewrite split_from_text. apply words_text_ext. exact IH.
    + cbn [plain_part] in Hp. rewrite (split_from_word _ _ _ Hp).
      rewrite <- IH, fstring_snoc. reflexivity.
Qed.

Lemma split_parts (parts : list part) :
  Forall plain_part parts -> split (fstring parts) = words_parts parts [].
Proof. intros H. exact (split_from_parts parts [] H). Qed.








Lemma plain_uint (d : Decimal.uint) :
  plain (NilEmpty.string_of_uint d) = true.
Proof.
  induction d as [|d IH|d IH|d IH|d IH|d IH|d IH|d IH|d IH|d IH|d IH];
    cbn [NilEmpty.string_of_uint]; [reflexivity|..];
    cbn [plain]; rewrite IH; reflexivity.
Qed.

Lemma plain_str_of_int (n : Z) : plain (PyStr.str_of_int n) = true.
Proof.
  unfold PyStr.str_of_int. destruct n as [|p|p];
    cbn [Z.to_int NilZero.string_of_int]; [reflexivity| |].
  - unfold NilZero.string_of_uint. destruct (Pos.to_uint p) eqn:Hd;
      [reflexivity|..]; rewrite <- Hd; apply plain_uint.
  - cbn [plain]. unfold NilZero.string_of_uint.
    destruct (Pos.to_uint p) eqn:Hd;
      [reflexivity|..]; rewrite <- Hd; rewrite plain_uint; reflexivity.
Qed.

(** The parts before and after the field that holds an f-string. *)
Ltac split_at_field l :=
  lazymatch l with
  | Field (fstring ?inner) :: ?b => constr:((@nil part, inner, b))
  | ?x :: ?t =>
      lazymatch split_at_field t with
      | (?a, ?inner, ?b) => constr:((x :: a, inner, b))
      end
  end.

Ltac inline_field :=
  lazymatch goal with
  | |- split (fstring ?l) = _ =>
      lazymatch split_at_field l with
      | (?a, ?inner, ?b) =>
          change l with (a ++ Field (fstring inner) :: b);
          rewrite (fstring_inline a inner b)
      end
  end.

Ltac plain_parts :=
  cbv [app];
  repeat (apply Forall_cons; [first [exact Logic.I | assumption | reflexivity]|]);
  apply Forall_nil.

(** X16: for a device path without whitespace, the description
    [build_pipeline] returns is this sequence of elements, one space
    between any two: the camera at the configured size and rate into the
    NVIDIA encoder at the configured bitrate in bit/s, into
    [webrtcbin name=sendrecv]; the software encoder text the function
    also builds is not part of it. *)
Theorem build_pipeline_text :
  forall s : streamer,
    plain (device s) = true ->
    Description.build_pipeline s =
    join " "
      ["v4l2src"; "device=" ++ device s; "!";
       "video/x-raw,width=" ++ PyStr.str_of_int (width s) ++
         ",height=" ++ PyStr.str_of_int (height s) ++
         ",framerate=" ++ PyStr.str_of_int (fps s) ++ "/1"; "!";
       "videoconvert"; "!";
       "queue"; "max-size-buffers=1"; "leaky=downstream"; "!";
       "nvvidconv"; "!";
       "nvv4l2h264enc"; "bitrate=" ++ PyStr.str_of_int (bitrate s);
         "preset-level=1"; "control-rate=1"; "iframeinterval=30"; "!";
       "h264parse"; "config-interval=-1"; "!";
       "rtph264pay"; "config-interval=-1"; "pt=96"; "!";
       "queue"; "max-size-buffers=1"; "leaky=downstream"; "!";
       "application/x-rtp,media=video,encoding-name=H264,payload=96"; "!";
       "webrtcbin"; "name=sendrecv"; "bundle-policy=max-bundle"]%string.
Proof.
  intros s Hdev. unfold Description.build_pipeline. cbv zeta. f_equal.
  pose proof (plain_no_whitespace _ Hdev) as Hd.
  pose proof (plain_no_whitespace _ (plain_str_of_int (width s))) as Hw.
  pose proof (plain_no_whitespace _ (plain_str_of_int (height s))) as Hh.
  pose proof (plain_no_whitespace _ (plain_str_of_int (fps s))) as Hf.
  pose proof (plain_no_whitespace _ (plain_str_of_int (bitrate s))) as Hb.
  unfold Description.pipeline_template, Description.encoder_template.
  generalize dependent (PyStr.str_of_int (bitrate s)). intros B HB.
  generalize dependent (PyStr.str_of_int (fps s)). intros F HF.
  generalize dependent (PyStr.str_of_int (height s)). intros H HH.
  generalize dependent (PyStr.str_of_int (width s)). intros W HW.
  generalize dependent (device s). intros dev _ Hd.
  cbv [line app]. inline_field.
  rewrite split_parts by plain_parts.
  vm_compute. reflexivity.
Qed.

Lemma build_pipeline_text_witness :
  Description.build_pipeline (self fresh) =
  "v4l2src device=/dev/video0 ! video/x-raw,width=1920,height=1080,framerate=30/1 ! videoconvert ! queue max-size-buffers=1 leaky=downstream ! nvvidconv ! nvv4l2h264enc bitrate=4000000 preset-level=1 control-rate=1 iframeinterval=30 ! h264parse config-interval=-1 ! rtph264pay config-interval=-1 pt=96 ! queue max-size-buffers=1 leaky=downstream ! application/x-rtp,media=video,encoding-name=H264,payload=96 ! webrtcbin name=sendrecv bundle-policy=max-bundle".
Proof.
  rewrite (build_pipeline_text (self fresh)); reflexivity.
Defined.

(** X17: for a device path without whitespace, the description
    [create_pipeline] falls back to is this sequence of elements, one
    space between any two: the same camera source into [x264enc], whose
    bitrate is the configured one divided by 1000 and rounded down, into
    [webrtcbin name=sendrecv]. *)
Theorem fallback_text :
  forall s : streamer,
    plain (device s) = true ->
    Description.fallback s =
    join " "
      ["v4l2src"; "device=" ++ device s; "!";
       "video/x-raw,width=" ++ PyStr.str_of_int (width s) ++
         ",height=" ++ PyStr.str_of_int (height s) ++
         ",framerate=" ++ PyStr.str_of_int (fps s) ++ "/1"; "!";
       "videoconvert"; "!";
       "x264enc"; "bitrate=" ++ PyStr.str_of_int (bitrate s / 1000);
         "speed-preset=ultrafast"; "tune=zerolatency"; "!";
       "h264parse"; "!";
       "rtph264pay"; "config-interval=-1"; "pt=96"; "!";
       "webrtcbin"; "name=sendrecv"; "bundle-policy=max-bundle"]%string.
Proof.
  intros s Hdev. unfold Description.fallback. cbv zeta. f_equal.
  pose proof (plain_no_whitespace _ Hdev) as Hd.
  pose proof (plain_no_whitespace _ (plain_str_of_int (width s))) as Hw.
  pose proof (plain_no_whitespace _ (plain_str_of_int (height s))) as Hh.
  pose proof (plain_no_whitespace _ (plain_str_of_int (fps s))) as Hf.
  pose proof (plain_no_whitespace _ (plain_str_of_int (bitrate s / 1000)))
    as Hb.
  unfold Description.software_template.
  generalize dependent (PyStr.str_of_int (bitrate s / 1000)). intros B HB.
  generalize dependent (PyStr.str_of_int (fps s)). intros F HF.
  generalize dependent (PyStr.str_of_int (height s)). intros H HH.
  generalize dependent (PyStr.str_of_int (width s)). intros W HW.
  generalize dependent (device s). intros dev _ Hd.
  cbv [line app].
  rewrite split_parts by plain_parts.
  vm_compute. reflexivity.
Qed.

Lemma fallback_text_witness :
  Description.fallback
    (init "/dev/video0" 1280 720 30 2500999 "ws://localhost:8765"
       EmptyString) =
  "v4l2src device=/dev/video0 ! video/x-raw,width=1280,height=720,framerate=30/1 ! videoconvert ! x264enc bitrate=2500 speed-preset=ultrafast tune=zerolatency ! h264parse ! rtph264pay config-interval=-1 pt=96 ! webrtcbin name=sendrecv bundle-policy=max-bundle".
Proof.
  rewrite (fallback_text
             (init "/dev/video0" 1280 720 30 2500999 "ws://localhost:8765"
                EmptyString)); reflexivity.
Defined.



